(** * Certificate generator: record store and PDF composer

    A shallow embedding of the two JavaScript modules of the repository,
    [Storage] (IndexedDB + localStorage persistence of certificates) and
    [PDFGenerator] (jsPDF layout of one certificate page), together with the
    properties of the specification that concern them.

    Conventions of the embedding:
    - a JavaScript string is a [string]; each character stands for one code
      unit in the range U+0000..U+00FF (Latin-1), which is closed under
      [toLowerCase] and [trim];
    - a JavaScript object is a finite map from property names to values;
    - a JavaScript number holding an integer is a [Z] (exact below 2^53),
      the only other number the code can produce is [NaN];
    - promises are modelled by their outcome, [Resolved] or [Rejected],
      together with the state they leave behind. *)

From Stdlib Require Import ZArith QArith Lqa Ascii String List Lia.
From stdpp Require Import base option list gmap strings sorting.

Local Open Scope string_scope.

(** ** JavaScript values, strings and numbers *)

Module Js.

Inductive Value : Type :=
| Undefined
| Null
| Str (s : string).

#[global] Instance Value_eq_dec : EqDecision Value.
Proof. solve_decision. Defined.

(** An object literal: own enumerable properties by name. *)
Abbreviation Obj := (gmap string Value).

(** [o.k]: reading a property that is not there gives [undefined]. *)
Definition prop (o : Obj) (k : string) : Value :=
  default Undefined (o !! k).

(** ToBoolean, as used by [if], [!] and [||]. *)
Definition truthy (v : Value) : bool :=
  match v with
  | Str EmptyString => false
  | Str _ => true
  | Undefined | Null => false
  end.

(** [a || b] *)
Definition or_else (a b : Value) : Value :=
  if truthy a then a else b.

(** ToString, as applied by template literals. *)
Definition toString (v : Value) : string :=
  match v with
  | Undefined => "undefined"
  | Null => "null"
  | Str s => s
  end.

(** *** Characters *)

Definition isWhiteSpace (c : ascii) : bool :=
  let n := N_of_ascii c in
  ((9 <=? n) && (n <=? 13) || (n =? 32) || (n =? 160))%N.

Definition isUpper (c : ascii) : bool :=
  let n := N_of_ascii c in
  ((65 <=? n) && (n <=? 90)
   || (192 <=? n) && (n <=? 222) && negb (n =? 215))%N.

Definition lowerChar (c : ascii) : ascii :=
  if isUpper c then ascii_of_N (N_of_ascii c + 32) else c.

(** *** String.prototype methods *)

Fixpoint toLowerCase (s : string) : string :=
  match s with
  | EmptyString => EmptyString
  | String c s' => String (lowerChar c) (toLowerCase s')
  end.

Fixpoint trimStart (s : string) : string :=
  match s with
  | EmptyString => EmptyString
  | String c s' => if isWhiteSpace c then trimStart s' else s
  end.

Fixpoint trimEnd (s : string) : string :=
  match s with
  | EmptyString => EmptyString
  | String c s' =>
      match trimEnd s' with
      | EmptyString => if isWhiteSpace c then EmptyString else String c EmptyString
      | r => String c r
      end
  end.

Definition trim (s : string) : string := trimEnd (trimStart s).

(** [s.includes(t)] *)
Fixpoint includes (s t : string) : bool :=
  String.prefix t s
  || match s with
     | EmptyString => false
     | String _ s' => includes s' t
     end.

Fixpoint replicate_char (n : nat) (c : ascii) : string :=
  match n with
  | O => EmptyString
  | S k => String c (replicate_char k c)
  end.

(** [s.padStart(n, c)] for a one-character filler [c]. *)
Definition padStart (n : nat) (c : ascii) (s : string) : string :=
  replicate_char (n - String.length s) c ++ s.

(** *** Numbers *)

Inductive Number : Type :=
| NaN
| Int (z : Z).

#[global] Instance Number_eq_dec : EqDecision Number.
Proof. solve_decision. Defined.

(** [n + 1] *)
Definition succ (n : Number) : Number :=
  match n with
  | NaN => NaN
  | Int z => Int (z + 1)
  end.

Definition digitChar (d : N) : ascii := ascii_of_N (48 + d).

(** Decimal digits, most significant first, pushed in front of [acc]. *)
Fixpoint decimal_go (fuel : nat) (n : N) (acc : string) : string :=
  match fuel with
  | O => acc
  | S f =>
      let acc' := String (digitChar (n mod 10)) acc in
      if (n <? 10)%N then acc' else decimal_go f (n / 10) acc'
  end.

Definition decimal (n : N) : string :=
  decimal_go (S (N.to_nat (N.log2 n))) n EmptyString.

(** Number.prototype.toString / String(n) *)
Definition numberToString (n : Number) : string :=
  match n with
  | NaN => "NaN"
  | Int z => if (z <? 0)%Z then String "-" (decimal (Z.abs_N z))
             else decimal (Z.to_N z)
  end.

Definition decDigit (c : ascii) : option N :=
  let n := N_of_ascii c in
  if ((48 <=? n) && (n <=? 57))%N then Some (n - 48)%N else None.

Definition hexDigit (c : ascii) : option N :=
  let n := N_of_ascii c in
  if ((48 <=? n) && (n <=? 57))%N then Some (n - 48)%N
  else if ((97 <=? n) && (n <=? 102))%N then Some (n - 87)%N
  else if ((65 <=? n) && (n <=? 70))%N then Some (n - 55)%N
  else None.

(** The longest prefix of radix digits, read as a number; [acc] is [None]
    until a first digit has been seen. *)
Fixpoint parseDigits (radix : N) (digit : ascii -> option N)
    (acc : option N) (s : string) : option N :=
  match s with
  | EmptyString => acc
  | String c s' =>
      match digit c with
      | Some d => parseDigits radix digit (Some (default 0 acc * radix + d)%N) s'
      | None => acc
      end
  end.

(** [parseInt(s)] with no radix argument: leading white space, an optional
    sign, an optional 0x or 0X prefix, then the longest run of digits. *)
Definition stripSign (s : string) : bool * string :=
  match s with
  | String c r =>
      if Ascii.eqb c "-" then (true, r)
      else if Ascii.eqb c "+" then (false, r)
      else (false, s)
  | EmptyString => (false, s)
  end.

Definition stripHexPrefix (s : string) : option string :=
  match s with
  | String c0 (String c1 r) =>
      if Ascii.eqb c0 "0" && (Ascii.eqb c1 "x" || Ascii.eqb c1 "X")
      then Some r else None
  | _ => None
  end.

Definition parseInt (s : string) : Number :=
  let '(negative, s2) := stripSign (trimStart s) in
  let digits :=
    match stripHexPrefix s2 with
    | Some r => parseDigits 16 hexDigit None r
    | None => parseDigits 10 decDigit None s2
    end in
  match digits with
  | None => NaN
  | Some n => Int (if negative then - Z.of_N n else Z.of_N n)
  end.

(** *** Promises *)

Inductive Error : Type :=
| DataError           (* IndexedDB: the value is not a valid key *)
| TypeError           (* a method was called on undefined or null *)
| OpenError           (* IndexedDB: the database could not be opened *)
| ImageError          (* Image.onerror *)
| RenderError (what : string).

Inductive Outcome (A : Type) : Type :=
| Resolved (a : A)
| Rejected (e : Error).
Arguments Resolved {A} a.
Arguments Rejected {A} e.

End Js.

Import Js.

(** ** The record store (module [Storage]) *)

Module Storage.

(** One reading of the clock, [new Date()], through the accessors the code
    uses (local calendar fields, [getMonth] counted from 0). *)
Record Date : Type := {
  getFullYear : Z;
  getMonth : Z;
  getDate : Z;
  toISOString : string
}.

(** What the module persists: the [localStorage] items, the records of the
    object store 'certificates' under their key path 'id', and whether
    [indexedDB.open] succeeds. *)
Record State : Type := {
  localStorage : gmap string string;
  certificates : gmap string Obj;
  opens : bool
}.

Definition getItem (st : State) (k : string) : Value :=
  match localStorage st !! k with
  | Some s => Str s
  | None => Null
  end.

Definition setItem (k v : string) (st : State) : State :=
  {| localStorage := <[k := v]> (localStorage st);
     certificates := certificates st;
     opens := opens st |}.

Definition set_certificates (m : gmap string Obj) (st : State) : State :=
  {| localStorage := localStorage st;
     certificates := m;
     opens := opens st |}.

Definition initDB (st : State) : Outcome unit :=
  if opens st then Resolved tt else Rejected OpenError.

(** A value usable as an IndexedDB key (of the values modelled, strings). *)
Definition validKey (v : Value) : option string :=
  match v with
  | Str s => Some s
  | Undefined | Null => None
  end.

(** The template literal of [datePart]. *)
Definition datePart (today : Date) : string :=
  numberToString (Int (getFullYear today))
  ++ padStart 2 "0" (numberToString (Int (getMonth today + 1)))
  ++ padStart 2 "0" (numberToString (Int (getDate today))).

Definition generateCertificateId (today : Date) (st : State) : string * State :=
  let counter :=
    succ (parseInt (toString (or_else (getItem st "certificateCounter") (Str "0")))) in
  let st' := setItem "certificateCounter" (numberToString counter) st in
  ("CERT-" ++ datePart today ++ "-" ++ padStart 5 "0" (numberToString counter), st').

Definition saveCertificate (today now : Date) (certificateData : Obj)
    (pdfDataUrl : Value) (st : State) : Outcome Obj * State :=
  match initDB st with
  | Rejected e => (Rejected e, st)
  | Resolved _ =>
      let '(id, st1) :=
        if truthy (prop certificateData "id")
        then (prop certificateData "id", st)
        else let '(fresh, st') := generateCertificateId today st in
             (Str fresh, st') in
      let certificate : Obj :=
        <["createdAt" := Str (toISOString now)]>
          (<["pdfDataUrl" := pdfDataUrl]>
             (certificateData ∪ {["id" := id]})) in
      match validKey (prop certificate "id") with
      | Some key =>
          (Resolved certificate,
           set_certificates (<[key := certificate]> (certificates st1)) st1)
      | None => (Rejected DataError, st1)
      end
  end.

(** Key order of the object store: [getAll] returns records by ascending key. *)
Definition key_le (a b : string * Obj) : Prop := String.leb a.1 b.1 = true.

#[global] Instance key_le_dec a b : Decision (key_le a b).
Proof. unfold key_le. apply _. Defined.

Definition getAllCertificates (st : State) : Outcome (list Obj) :=
  match initDB st with
  | Rejected e => Rejected e
  | Resolved _ =>
      Resolved ((merge_sort key_le (map_to_list (certificates st))).*2)
  end.

(** [new Date(v).toLocaleDateString()]: an invalid date prints as
    "Invalid Date"; anything else is formatted by the host's locale. *)
Definition localeDateOf (toLocaleDateString : Value -> string) (v : Value) : string :=
  match v with
  | Undefined => "Invalid Date"
  | _ => toLocaleDateString v
  end.

(** [v.toLowerCase()], a TypeError unless [v] is a string. *)
Definition lowered (v : Value) : Outcome string :=
  match v with
  | Str s => Resolved (toLowerCase s)
  | Undefined | Null => Rejected TypeError
  end.

(** The filter callback of [searchCertificates], with the left-to-right
    evaluation of [||]. *)
Definition matchesTerm (toLocaleDateString : Value -> string) (term : string)
    (cert : Obj) : Outcome bool :=
  match lowered (prop cert "id") with
  | Rejected e => Rejected e
  | Resolved i =>
      if includes i term then Resolved true else
      match lowered (prop cert "participantName") with
      | Rejected e => Rejected e
      | Resolved p =>
          if includes p term then Resolved true else
          match lowered (prop cert "eventName") with
          | Rejected e => Rejected e
          | Resolved n =>
              if includes n term then Resolved true else
              Resolved (includes
                          (localeDateOf toLocaleDateString (prop cert "date"))
                          term)
          end
      end
  end.

(** [Array.prototype.filter] with a callback that may throw. *)
Fixpoint filterCerts (p : Obj -> Outcome bool) (l : list Obj) : Outcome (list Obj) :=
  match l with
  | [] => Resolved []
  | c :: l' =>
      match p c with
      | Rejected e => Rejected e
      | Resolved b =>
          match filterCerts p l' with
          | Rejected e => Rejected e
          | Resolved r => Resolved (if b then c :: r else r)
          end
      end
  end.

Definition searchCertificates (toLocaleDateString : Value -> string)
    (searchTerm : Value) (st : State) : Outcome (list Obj) :=
  match getAllCertificates st with
  | Rejected e => Rejected e
  | Resolved certs =>
      match searchTerm with
      | Undefined | Null => Resolved certs
      | Str s =>
          if negb (truthy searchTerm) || bool_decide (trim s = "")
          then Resolved certs
          else
            let term := trim (toLowerCase s) in
            filterCerts (matchesTerm toLocaleDateString term) certs
      end
  end.

Definition getCertificateById (id : Value) (st : State) : Outcome (option Obj) :=
  match initDB st with
  | Rejected e => Rejected e
  | Resolved _ =>
      match validKey id with
      | Some key => Resolved (certificates st !! key)
      | None => Rejected DataError
      end
  end.

Definition deleteCertificate (id : Value) (st : State) : Outcome bool * State :=
  match initDB st with
  | Rejected e => (Rejected e, st)
  | Resolved _ =>
      match validKey id with
      | Some key => (Resolved true, set_certificates (delete key (certificates st)) st)
      | None => (Rejected DataError, st)
      end
  end.

End Storage.

(** ** The document composer (module [PDFGenerator]) *)

Module PDFGenerator.

Local Open Scope Q_scope.

(** The text argument of [pdf.text]: one value or an array of lines. *)
Inductive TextArg : Type :=
| Single (v : Value)
| Lines (l : list string).

(** The jsPDF calls that draw on the page, with their arguments. Every text
    is drawn with [{ align: 'center' }]. *)
Inductive Cmd : Type :=
| SetDrawColor (r g b : Z)
| SetLineWidth (w : Q)
| Rect (x y w h : Q)
| SetFont (name style : string)
| SetFontSize (size : Z)
| SetTextColor (r g b : Z)
| Text (content : TextArg) (x y : Q)
| AddImage (imageData : string) (format : string) (x y w h : Q)
| Line (x1 y1 x2 y2 : Q).

(** What the browser and jsPDF provide. [rnd] rounds the exact result of an
    arithmetic operation to a double; [refuses] tells whether jsPDF throws on
    a call, given the calls carried out so far. *)
Record Host : Type := {
  rnd : Q -> Q;
  pageWidth : Q;
  pageHeight : Q;
  imageSize : string -> Outcome (Z * Z);
  refuses : list Cmd -> Cmd -> option Error;
  splitTextToSize : string -> Q -> list string;
  toLocaleDateString : Value -> string;
  todayString : string;
  output : list Cmd -> string
}.

(** *** Computations on a jsPDF document that may throw *)

Definition M (A : Type) : Type := list Cmd -> Outcome A * list Cmd.

Definition ret {A} (a : A) : M A := fun doc => (Resolved a, doc).

Definition bind {A B} (m : M A) (k : A -> M B) : M B :=
  fun doc =>
    match m doc with
    | (Resolved a, doc') => k a doc'
    | (Rejected e, doc') => (Rejected e, doc')
    end.

Definition throw {A} (e : Error) : M A := fun doc => (Rejected e, doc).

Definition try_catch {A} (m : M A) (handler : Error -> M A) : M A :=
  fun doc =>
    match m doc with
    | (Resolved a, doc') => (Resolved a, doc')
    | (Rejected e, doc') => handler e doc'
    end.

Definition await {A} (p : Outcome A) : M A :=
  match p with
  | Resolved a => ret a
  | Rejected e => throw e
  end.

#[global] Instance M_ret : MRet M := @ret.
#[global] Instance M_bind : MBind M := fun A B k m => bind m k.

Section Composer.

Variable host : Host.

(** Double arithmetic: the exact result, rounded. *)
Definition fadd (a b : Q) : Q := rnd host (a + b).
Definition fsub (a b : Q) : Q := rnd host (a - b).
Definition fmul (a b : Q) : Q := rnd host (a * b).
Definition fdiv (a b : Q) : Q := rnd host (a / b).

Definition draw (c : Cmd) : M unit :=
  fun doc =>
    match refuses host doc c with
    | Some e => (Rejected e, doc)
    | None => (Resolved tt, (doc ++ [c])%list)
    end.

Definition loadImage (url : string) : Outcome (Z * Z) := imageSize host url.

Definition formatDate (dateString : Value) : string :=
  toLocaleDateString host dateString.

Definition quote : string := String "034"%char EmptyString.
Definition o_acute : string := String "243"%char EmptyString.
Definition O_acute : string := String "211"%char EmptyString.

Definition asistenteText (data : Obj) : string :=
  "ha participado como ASISTENTE en el evento " ++ quote
  ++ toString (prop data "eventName") ++ quote
  ++ ", completando satisfactoriamente "
  ++ toString (prop data "eventDuration")
  ++ " horas de formaci" ++ o_acute ++ "n.".

Definition getRoleSpecificText (data : Obj) : string :=
  let role := prop data "participantRole" in
  if decide (role = Str "Ponente") then
    "ha participado como PONENTE en el evento " ++ quote
    ++ toString (prop data "eventName") ++ quote
    ++ ", presentando su conocimiento y experiencia durante "
    ++ toString (prop data "eventDuration") ++ " horas."
  else if decide (role = Str "Organizador") then
    "ha participado como ORGANIZADOR en el evento " ++ quote
    ++ toString (prop data "eventName") ++ quote
    ++ ", gestionando y coordinando actividades durante "
    ++ toString (prop data "eventDuration") ++ " horas."
  else (* case 'Asistente': default: *)
    asistenteText data.

Definition maxLogoWidth : Q := 50.
Definition maxLogoHeight : Q := 50.

(** [if (logoWidth > maxLogoWidth) { ... }] *)
Definition constrainWidth (size : Q * Q) : Q * Q :=
  let '(logoWidth, logoHeight) := size in
  if Qlt_le_dec maxLogoWidth logoWidth then
    let ratio := fdiv maxLogoWidth logoWidth in
    (maxLogoWidth, fmul logoHeight ratio)
  else (logoWidth, logoHeight).

(** [if (logoHeight > maxLogoHeight) { ... }] *)
Definition constrainHeight (size : Q * Q) : Q * Q :=
  let '(logoWidth, logoHeight) := size in
  if Qlt_le_dec maxLogoHeight logoHeight then
    let ratio := fdiv maxLogoHeight logoHeight in
    (fmul logoWidth ratio, maxLogoHeight)
  else (logoWidth, logoHeight).

(** The drawn size of a logo whose image is [width] by [height]. *)
Definition logoSize (width height : Z) : Q * Q :=
  constrainHeight (constrainWidth (inject_Z width, inject_Z height)).

(** The body of [if (logoDataUrl) { try { ... } catch { ... } }]; its value
    is the final [logoHeight]. *)
Definition placeLogo (logoDataUrl : Value) : M Q :=
  if truthy logoDataUrl then
    try_catch
      (logoImg ← await (loadImage (toString logoDataUrl));
       let '(logoWidth, logoHeight) := logoSize logoImg.1 logoImg.2 in
       draw (AddImage (toString logoDataUrl) "PNG"
               (fsub (fdiv (pageWidth host) 2) (fdiv logoWidth 2)) 40
               logoWidth logoHeight) ;;
       mret (fadd logoHeight 10))
      (fun logoError => mret 0)
  else mret 0.

(** Everything drawn before the logo. *)
Definition drawFrame : M unit :=
  draw (SetDrawColor 0 110 253) ;;
  draw (SetLineWidth 1) ;;
  draw (Rect 10 10 (fsub (pageWidth host) 20) (fsub (pageHeight host) 20)) ;;
  draw (SetDrawColor 220 220 220) ;;
  draw (SetLineWidth (1 # 2)) ;;
  draw (Rect 15 15 (fsub (pageWidth host) 30) (fsub (pageHeight host) 30)) ;;
  draw (SetFont "helvetica" "bold") ;;
  draw (SetFontSize 24) ;;
  draw (SetTextColor 0 110 253) ;;
  draw (Text (Single (Str ("CERTIFICADO DE PARTICIPACI" ++ O_acute ++ "N")))
          (fdiv (pageWidth host) 2) 30).

(** Everything drawn after the logo, from the cursor [logoHeight]. *)
Definition drawBody (data : Obj) (logoHeight : Q) : M unit :=
  let center := fdiv (pageWidth host) 2 in
  draw (SetFont "helvetica" "normal") ;;
  draw (SetFontSize 12) ;;
  draw (SetTextColor 0 0 0) ;;
  draw (Text (Single (Str "Se certifica que:")) center (fadd 50 logoHeight)) ;;
  draw (SetFont "helvetica" "bold") ;;
  draw (SetFontSize 18) ;;
  draw (Text (Single (prop data "participantName")) center (fadd 60 logoHeight)) ;;
  draw (SetFont "helvetica" "normal") ;;
  draw (SetFontSize 12) ;;
  let roleText := getRoleSpecificText data in
  let textWidth := fsub (pageWidth host) 80 in
  let splitText := splitTextToSize host roleText textWidth in
  draw (Text (Lines splitText) center (fadd 70 logoHeight)) ;;
  let textHeight := fmul (inject_Z (Z.of_nat (length splitText))) 5 in
  let yPos := fadd (fadd 75 logoHeight) textHeight in
  draw (Text (Single (Str ("Realizado el " ++ formatDate (prop data "eventDate")
                           ++ " en " ++ toString (prop data "eventLocation") ++ ".")))
          center yPos) ;;
  let yPos := fadd yPos 30 in
  draw (Line (fsub center 30) yPos (fadd center 30) yPos) ;;
  let yPos := fadd yPos 5 in
  draw (Text (Single (Str "Firma del Organizador")) center yPos) ;;
  let yPos := fadd yPos 20 in
  draw (SetFontSize 8) ;;
  draw (SetTextColor 100 100 100) ;;
  draw (Text (Single (Str ("ID: " ++ toString (prop data "id")
                           ++ " | Fecha de emisi" ++ o_acute ++ "n: "
                           ++ todayString host)))
          center yPos) ;;
  let yPos := fadd yPos 5 in
  draw (Text (Single (Str "Este certificado puede ser validado en www.nuestroevento.com/validar"))
          center yPos).

(** [pdf.output('dataurlstring')] *)
Definition outputDataUrl : M string :=
  fun doc => (Resolved (output host doc), doc).

(** The outer [try { ... } catch (error) { console.error(...); throw error; }]
    around the whole composition, run on a new document. The result is the
    promise's outcome and the calls carried out on the document. *)
Definition composeCertificate (data : Obj) (logoDataUrl : Value)
    : Outcome string * list Cmd :=
  try_catch
    (drawFrame ;;
     logoHeight ← placeLogo logoDataUrl;
     drawBody data logoHeight ;;
     outputDataUrl)
    (fun error => throw error)
    [].

Definition generateCertificatePDF (data : Obj) (logoDataUrl : Value) : Outcome string :=
  (composeCertificate data logoDataUrl).1.

End Composer.

End PDFGenerator.

(** ** Vocabulary of the specification *)

Module Spec.

Import Storage.

Definition isDigit (c : ascii) : bool :=
  let n := N_of_ascii c in ((48 <=? n) && (n <=? 57))%N.

Fixpoint digitsOnly (s : string) : bool :=
  match s with
  | EmptyString => true
  | String c s' => isDigit c && digitsOnly s'
  end.

Fixpoint hasChar (c : ascii) (s : string) : bool :=
  match s with
  | EmptyString => false
  | String a s' => Ascii.eqb a c || hasChar c s'
  end.

(** [s.slice(s.lastIndexOf(c) + 1)] *)
Fixpoint afterLast (c : ascii) (s : string) : string :=
  match s with
  | EmptyString => EmptyString
  | String a s' =>
      if hasChar c s' then afterLast c s'
      else if Ascii.eqb a c then s' else s
  end.

(** The numeric suffix of an identifier: what follows its last dash. *)
Definition numericSuffix (id : string) : Number := parseInt (afterLast "-" id).

(** The counter as [generateCertificateId] reads it. *)
Definition currentCounter (st : State) : Number :=
  parseInt (toString (or_else (getItem st "certificateCounter") (Str "0"))).

(** Calling [generateCertificateId] once per clock reading, in sequence. *)
Fixpoint generateIds (days : list Date) (st : State) : list string * State :=
  match days with
  | [] => ([], st)
  | today :: rest =>
      let '(id, st1) := generateCertificateId today st in
      let '(ids, st2) := generateIds rest st1 in
      (id :: ids, st2)
  end.

(** A search term that makes [searchCertificates] return everything:
    absent, empty or white space only. *)
Definition blankTerm (searchTerm : Value) : bool :=
  match searchTerm with
  | Str s => bool_decide (trim s = "")
  | Undefined | Null => true
  end.

(** The term as it is compared: lower-cased and trimmed. *)
Definition termOf (searchTerm : Value) : string :=
  match searchTerm with
  | Str s => trim (toLowerCase s)
  | Undefined | Null => ""
  end.

(** Field [k] of the record is a string that contains [term], ignoring case. *)
Definition fieldIncludes (cert : Obj) (k : string) (term : string) : bool :=
  match prop cert k with
  | Str s => includes (toLowerCase s) term
  | Undefined | Null => false
  end.

(** The criterion of the specification: [id], [participantName] or
    [eventName] contains the term. *)
Definition matchesNamedFields (term : string) (cert : Obj) : bool :=
  fieldIncludes cert "id" term
  || fieldIncludes cert "participantName" term
  || fieldIncludes cert "eventName" term.

Definition isStr (v : Value) : bool :=
  match v with
  | Str _ => true
  | Undefined | Null => false
  end.

(** A record as the application saves it: the three searched fields are
    strings. *)
Definition searchable (cert : Obj) : bool :=
  isStr (prop cert "id") && isStr (prop cert "participantName")
  && isStr (prop cert "eventName").

(** Rounding never reverses the order of two results. *)
Definition monotoneRounding (f : Q -> Q) : Prop :=
  forall x y : Q, (x <= y)%Q -> (f x <= f y)%Q.

(** Rounding with relative error at most [e]. *)
Definition relativeError (e : Q) (f : Q -> Q) : Prop :=
  forall x : Q, (0 <= x)%Q -> ((1 - e) * x <= f x <= (1 + e) * x)%Q.

(** Arithmetic without rounding error. *)
Definition exactArithmetic (f : Q -> Q) : Prop := forall x : Q, (f x == x)%Q.

(** The [createdAt] of the record stored under [key], if any. *)
Definition createdAtOf (st : State) (key : string) : option Value :=
  certificates st !! key ≫= (fun cert : Obj => cert !! "createdAt").

End Spec.

(** ** Sample data *)

Module Examples.

Import Storage.

Definition day1 : Date :=
  {| getFullYear := 2024; getMonth := 4; getDate := 10;
     toISOString := "2024-05-10T15:04:05.000Z" |}.

Definition day2 : Date :=
  {| getFullYear := 2024; getMonth := 4; getDate := 11;
     toISOString := "2024-05-11T09:30:00.000Z" |}.

Definition emptyStore : State :=
  {| localStorage := ∅; certificates := ∅; opens := true |}.

Definition carlos : Obj :=
  {[ "id" := Str "CERT-20240510-00001";
     "eventName" := Str "Taller de Rust";
     "eventDate" := Str "2024-05-10";
     "eventLocation" := Str "Lima";
     "participantName" := Str "Carlos Ruiz";
     "participantRole" := Str "Ponente";
     "eventDuration" := Str "8" ]}.

Definition carlosEdited : Obj := <["eventLocation" := Str "Cusco"]> carlos.

Definition carlosNoId : Obj := delete "id" carlos.

(** The store after saving [carlos] once, and the record it then holds. *)
Definition carlosSaved : State :=
  (saveCertificate day1 day1 carlos (Str "data:application/pdf;base64,AAAA") emptyStore).2.

Definition carlosRecord : Obj :=
  <["createdAt" := Str "2024-05-10T15:04:05.000Z"]>
    (<["pdfDataUrl" := Str "data:application/pdf;base64,AAAA"]> carlos).

(** A host locale that prints every valid date the same way. *)
Definition plainLocale (v : Value) : string := "10/5/2024".

(** A browser without rounding error in which no image loads and jsPDF
    accepts every call. *)
Definition plainHost : PDFGenerator.Host :=
  {| PDFGenerator.rnd := fun x => x;
     PDFGenerator.pageWidth := 297%Q;
     PDFGenerator.pageHeight := 210%Q;
     PDFGenerator.imageSize := fun _ => Rejected ImageError;
     PDFGenerator.refuses := fun _ _ => None;
     PDFGenerator.splitTextToSize := fun text _ => [text];
     PDFGenerator.toLocaleDateString := plainLocale;
     PDFGenerator.todayString := "1/11/2026";
     PDFGenerator.output := fun _ => "data:application/pdf;base64,JVBERi0=" |}.


Definition brokenLogo : Value := Str "data:image/png;base64,AAAA".

Definition invitado : Obj := <["participantRole" := Str "Invitado"]> carlos.

Definition anonymous : Obj := delete "participantName" carlos.

End Examples.

(** ** The page script (main.js) *)

Module Main.

Import Storage.

(** The page as the script sees it. Every element the script names is taken
    to exist: a form control without an entry in [values] has the empty
    value, an element without an entry in [texts] has no text. [classes]
    holds the pairs (element id, class name) currently set; [toasts] the
    notifications shown so far, each with its type. The three [let]
    variables of the script and the state of [Storage] complete it. *)
Record Page : Type := {
  values : gmap string string;
  texts : gmap string string;
  classes : gset (string * string);
  iframeSrc : string;
  logoSrc : string;
  currentCertificateData : option Obj;
  currentPdfDataUrl : Value;
  logoDataUrl : Value;
  loading : bool;
  toasts : list (string * string);
  storage : State
}.

Definition valueOf (page : Page) (id : string) : string :=
  default "" (values page !! id).

Definition textOf (page : Page) (id : string) : string :=
  default "" (texts page !! id).

Definition set_texts (t : gmap string string) (page : Page) : Page :=
  {| values := values page; texts := t; classes := classes page;
     iframeSrc := iframeSrc page; logoSrc := logoSrc page;
     currentCertificateData := currentCertificateData page;
     currentPdfDataUrl := currentPdfDataUrl page;
     logoDataUrl := logoDataUrl page; loading := loading page;
     toasts := toasts page; storage := storage page |}.

Definition set_classes (c : gset (string * string)) (page : Page) : Page :=
  {| values := values page; texts := texts page; classes := c;
     iframeSrc := iframeSrc page; logoSrc := logoSrc page;
     currentCertificateData := currentCertificateData page;
     currentPdfDataUrl := currentPdfDataUrl page;
     logoDataUrl := logoDataUrl page; loading := loading page;
     toasts := toasts page; storage := storage page |}.

Definition set_iframeSrc (src : string) (page : Page) : Page :=
  {| values := values page; texts := texts page; classes := classes page;
     iframeSrc := src; logoSrc := logoSrc page;
     currentCertificateData := currentCertificateData page;
     currentPdfDataUrl := currentPdfDataUrl page;
     logoDataUrl := logoDataUrl page; loading := loading page;
     toasts := toasts page; storage := storage page |}.

Definition set_logoSrc (src : string) (page : Page) : Page :=
  {| values := values page; texts := texts page; classes := classes page;
     iframeSrc := iframeSrc page; logoSrc := src;
     currentCertificateData := currentCertificateData page;
     currentPdfDataUrl := currentPdfDataUrl page;
     logoDataUrl := logoDataUrl page; loading := loading page;
     toasts := toasts page; storage := storage page |}.

Definition set_currentCertificateData (data : option Obj) (page : Page) : Page :=
  {| values := values page; texts := texts page; classes := classes page;
     iframeSrc := iframeSrc page; logoSrc := logoSrc page;
     currentCertificateData := data;
     currentPdfDataUrl := currentPdfDataUrl page;
     logoDataUrl := logoDataUrl page; loading := loading page;
     toasts := toasts page; storage := storage page |}.

Definition set_currentPdfDataUrl (url : Value) (page : Page) : Page :=
  {| values := values page; texts := texts page; classes := classes page;
     iframeSrc := iframeSrc page; logoSrc := logoSrc page;
     currentCertificateData := currentCertificateData page;
     currentPdfDataUrl := url;
     logoDataUrl := logoDataUrl page; loading := loading page;
     toasts := toasts page; storage := storage page |}.

Definition set_loading (b : bool) (page : Page) : Page :=
  {| values := values page; texts := texts page; classes := classes page;
     iframeSrc := iframeSrc page; logoSrc := logoSrc page;
     currentCertificateData := currentCertificateData page;
     currentPdfDataUrl := currentPdfDataUrl page;
     logoDataUrl := logoDataUrl page; loading := b;
     toasts := toasts page; storage := storage page |}.

Definition set_toasts (t : list (string * string)) (page : Page) : Page :=
  {| values := values page; texts := texts page; classes := classes page;
     iframeSrc := iframeSrc page; logoSrc := logoSrc page;
     currentCertificateData := currentCertificateData page;
     currentPdfDataUrl := currentPdfDataUrl page;
     logoDataUrl := logoDataUrl page; loading := loading page;
     toasts := t; storage := storage page |}.

Definition set_storage (st : State) (page : Page) : Page :=
  {| values := values page; texts := texts page; classes := classes page;
     iframeSrc := iframeSrc page; logoSrc := logoSrc page;
     currentCertificateData := currentCertificateData page;
     currentPdfDataUrl := currentPdfDataUrl page;
     logoDataUrl := logoDataUrl page; loading := loading page;
     toasts := toasts page; storage := st |}.

(** [element.textContent = text] *)
Definition setText (id text : string) (page : Page) : Page :=
  set_texts (<[id := text]> (texts page)) page.

(** [element.classList.add(name)] and [element.classList.remove(name)] *)
Definition addClass (id name : string) (page : Page) : Page :=
  set_classes (classes page ∪ {[ (id, name) ]}) page.

Definition removeClass (id name : string) (page : Page) : Page :=
  set_classes (classes page ∖ {[ (id, name) ]}) page.

(** [showToast(message, type)]: the notification is shown. *)
Definition showToast (message type : string) (page : Page) : Page :=
  set_toasts (toasts page ++ [(message, type)])%list page.

Fixpoint dropChars (n : nat) (s : string) : string :=
  match n, s with
  | O, _ => s
  | S k, String _ s' => dropChars k s'
  | S _, EmptyString => EmptyString
  end.

(** [s.replace(pattern, replacement)] for a string pattern and a
    replacement without dollar signs: the first occurrence is replaced. *)
Fixpoint replace (pattern replacement s : string) : string :=
  if String.prefix pattern s
  then replacement ++ dropChars (String.length pattern) s
  else match s with
       | EmptyString => EmptyString
       | String c s' => String c (replace pattern replacement s')
       end.

(** [a || b] on strings *)
Definition orDefault (a b : string) : string :=
  match a with
  | EmptyString => b
  | _ => a
  end.

(** [updatePreview()]; [formatDate] is the function of that name, which
    prints a date in the es-ES locale of the host. *)
Definition updatePreview (formatDate : string -> string) (today : Date)
    (page : Page) : Page :=
  let eventName := valueOf page "event-name" in
  let eventDate := valueOf page "event-date" in
  let eventLocation := valueOf page "event-location" in
  let participantName := valueOf page "participant-name" in
  let participantRole := valueOf page "participant-role" in
  let eventDuration := valueOf page "event-duration" in
  let page := setText "preview-event" (orDefault eventName "Nombre del Evento") page in
  let page :=
    setText "preview-date"
      (match eventDate with
       | EmptyString => "Fecha"
       | _ => formatDate eventDate
       end) page in
  let page := setText "preview-location" (orDefault eventLocation "Lugar") page in
  let page :=
    setText "preview-participant"
      (orDefault participantName "Nombre del Participante") page in
  let page := setText "preview-role" (orDefault participantRole "Rol") page in
  let page := setText "preview-duration" (orDefault eventDuration "0") page in
  let page :=
    if bool_decide (textOf page "preview-certificate-id" = "ID: 000000")
    then let '(id, st) := generateCertificateId today (storage page) in
         setText "preview-certificate-id" ("ID: " ++ id) (set_storage st page)
    else page in
  if truthy (logoDataUrl page)
  then set_logoSrc (toString (logoDataUrl page)) page
  else set_logoSrc "assets/default-logo.png" page.

Definition collectFormData (page : Page) : Obj :=
  let certId := replace "ID: " "" (textOf page "preview-certificate-id") in
  {[ "id" := Str certId;
     "eventName" := Str (valueOf page "event-name");
     "eventDate" := Str (valueOf page "event-date");
     "eventLocation" := Str (valueOf page "event-location");
     "participantName" := Str (valueOf page "participant-name");
     "participantRole" := Str (valueOf page "participant-role");
     "eventDuration" := Str (valueOf page "event-duration") ]}.

Definition requiredFields : list string :=
  [ "event-name"; "event-date"; "event-location";
    "participant-name"; "participant-role"; "event-duration" ].

(** One round of the [forEach] of [validateForm]. *)
Definition validateField (acc : bool * Page) (fieldId : string) : bool * Page :=
  let '(isValid, page) := acc in
  if bool_decide (trim (valueOf page fieldId) = "")
  then (false, addClass fieldId "is-invalid" page)
  else (isValid, removeClass fieldId "is-invalid" page).

Definition validateForm (page : Page) : bool * Page :=
  fold_left validateField requiredFields (true, page).

Definition e_acute : string := String "233"%char EmptyString.
Definition inverted_bang : string := String "161"%char EmptyString.

(** The [catch] of [generatePDF]. *)
Definition generationFailed (page : Page) : Page :=
  showToast ("Error al generar el certificado. Int" ++ e_acute ++ "ntelo de nuevo.")
    "danger" (set_loading false page).

(** [generatePDF()]; [today] and [now] are the clock readings that
    [Storage.saveCertificate] may take. *)
Definition generatePDF (host : PDFGenerator.Host) (today now : Date)
    (page : Page) : Page :=
  let '(valid, page) := validateForm page in
  if negb valid then
    showToast "Por favor, complete todos los campos obligatorios." "danger" page
  else
    let page := set_loading true page in
    let data := collectFormData page in
    let page := set_currentCertificateData (Some data) page in
    match PDFGenerator.generateCertificatePDF host data (logoDataUrl page) with
    | Rejected _ => generationFailed page
    | Resolved pdf =>
        let page := set_currentPdfDataUrl (Str pdf) page in
        let page := set_iframeSrc pdf page in
        let page := addClass "preview-container" "d-none" page in
        let page := removeClass "pdf-container" "d-none" page in
        let '(saved, st) := saveCertificate today now data (Str pdf) (storage page) in
        let page := set_storage st page in
        match saved with
        | Rejected _ => generationFailed page
        | Resolved _ =>
            showToast (inverted_bang ++ "Certificado generado con " ++ e_acute ++ "xito!")
              "success" (set_loading false page)
        end
    end.

(** The two notifications that end a run of [generatePDF]. *)
Definition successToast : string * string :=
  (inverted_bang ++ "Certificado generado con " ++ e_acute ++ "xito!", "success").

Definition failureToast : string * string :=
  ("Error al generar el certificado. Int" ++ e_acute ++ "ntelo de nuevo.", "danger").

(** The user types into the form. *)
Definition fillForm (v : gmap string string) (page : Page) : Page :=
  {| values := v; texts := texts page; classes := classes page;
     iframeSrc := iframeSrc page; logoSrc := logoSrc page;
     currentCertificateData := currentCertificateData page;
     currentPdfDataUrl := currentPdfDataUrl page;
     logoDataUrl := logoDataUrl page; loading := loading page;
     toasts := toasts page; storage := storage page |}.

End Main.

(** ** Reading a composed page *)

Module Layout.

Import PDFGenerator.

(** The baseline of a text, the abscissa it is centred on. *)
Definition textBaseline (c : Cmd) : option Q :=
  match c with
  | Text _ _ y => Some y
  | _ => None
  end.

Definition textCentre (c : Cmd) : option Q :=
  match c with
  | Text _ x _ => Some x
  | _ => None
  end.

(** The end points of a rule. *)
Definition ruleEnds (c : Cmd) : option (Q * Q * Q * Q) :=
  match c with
  | Line x1 y1 x2 y2 => Some (x1, y1, x2, y2)
  | _ => None
  end.

Definition textBaselines (doc : list Cmd) : list Q := omap textBaseline doc.
Definition textCentres (doc : list Cmd) : list Q := omap textCentre doc.
Definition rules (doc : list Cmd) : list (Q * Q * Q * Q) := omap ruleEnds doc.

(** The number of lines the role paragraph is split into. *)
Definition roleLines (host : Host) (data : Obj) : Q :=
  inject_Z (Z.of_nat (length
    (splitTextToSize host (getRoleSpecificText data)
       (fsub host (pageWidth host) 80%Q)))).

End Layout.

(** ** A sample session *)

Module Session.

Import Storage Main.

Definition filled : gmap string string :=
  {[ "event-name" := "Taller de Rust";
     "event-date" := "2024-05-10";
     "event-location" := "Lima";
     "participant-name" := "Carlos Ruiz";
     "participant-role" := "Ponente";
     "event-duration" := "8" ]}.

Definition filledAgain : gmap string string :=
  <["participant-name" := "Ana Torres"]> filled.

Definition blankName : gmap string string :=
  <["participant-name" := "   "]> filled.

(** The page as it is served, before the script has run. *)
Definition servedPage : Page :=
  {| values := ∅;
     texts := {[ "preview-certificate-id" := "ID: 000000" ]};
     classes := ∅;
     iframeSrc := "";
     logoSrc := "";
     currentCertificateData := None;
     currentPdfDataUrl := Null;
     logoDataUrl := Null;
     loading := false;
     toasts := [];
     storage := Examples.emptyStore |}.

(** After the script has started ([updatePreview] runs once) and the user
    has filled the form in. *)
Definition readyPage : Page :=
  fillForm filled (updatePreview (fun date => date) Examples.day1 servedPage).

Definition closedPage : Page :=
  set_storage
    {| localStorage := ∅; certificates := ∅; opens := false |} readyPage.

(** A browser in which every image loads as 400 by 300. *)
Definition photoHost : PDFGenerator.Host :=
  {| PDFGenerator.rnd := fun x => x;
     PDFGenerator.pageWidth := 297%Q;
     PDFGenerator.pageHeight := 210%Q;
     PDFGenerator.imageSize := fun _ => Resolved (400%Z, 300%Z);
     PDFGenerator.refuses := fun _ _ => None;
     PDFGenerator.splitTextToSize := fun text _ => [text];
     PDFGenerator.toLocaleDateString := Examples.plainLocale;
     PDFGenerator.todayString := "1/11/2026";
     PDFGenerator.output := fun _ => "data:application/pdf;base64,JVBERi0=" |}.

End Session.

Import Storage Spec.

(** * Properties *)

(** ** Decimal numerals *)

Section Numerals.

Local Open Scope N_scope.

Ltac digit_cases d H :=
  destruct d as [|d]; [|do 4 (try destruct d as [d|d|])]; try lia; clear H.

Lemma decDigit_digitChar d : d < 10 -> decDigit (digitChar d) = Some d.
Proof. intros H. digit_cases d H; reflexivity. Qed.

Lemma isDigit_digitChar d : d < 10 -> isDigit (digitChar d) = true.
Proof. intros H. digit_cases d H; reflexivity. Qed.

Lemma isDigit_inv c :
  isDigit c = true ->
  isWhiteSpace c = false /\ Ascii.eqb c "-" = false /\ Ascii.eqb c "+" = false
  /\ Ascii.eqb c "x" = false /\ Ascii.eqb c "X" = false
  /\ exists d, decDigit c = Some d.
Proof.
  destruct c as [[] [] [] [] [] [] [] []]; vm_compute; intros H;
    try discriminate H; repeat split; eauto.
Qed.

Lemma parse_decimal_go f n acc :
  n < 2 ^ N.of_nat (S f) ->
  parseDigits 10 decDigit None (decimal_go (S f) n acc)
  = parseDigits 10 decDigit (Some n) acc.
Proof.
  revert n acc. induction f as [|f IH]; intros n acc Hn.
  - assert (n < 10) as Hlt by (change (2 ^ N.of_nat 1) with 2 in Hn; lia).
    cbn [decimal_go]. apply N.ltb_lt in Hlt as Hb. rewrite Hb.
    rewrite N.mod_small by lia. cbn [parseDigits].
    rewrite decDigit_digitChar by lia. reflexivity.
  - change (decimal_go (S (S f)) n acc) with
      (let acc' := String (digitChar (n mod 10)) acc in
       if n <? 10 then acc' else decimal_go (S f) (n / 10) acc').
    cbv zeta. destruct (n <? 10) eqn:Hb.
    + apply N.ltb_lt in Hb. rewrite N.mod_small by lia. cbn [parseDigits].
      rewrite decDigit_digitChar by lia. reflexivity.
    + apply N.ltb_ge in Hb. rewrite IH.
      * cbn [parseDigits]. rewrite decDigit_digitChar by (apply N.mod_lt; lia).
        cbn [default]. f_equal. f_equal.
        unfold id. pose proof (N.div_mod n 10 ltac:(lia)). lia.
      * rewrite Nat2N.inj_succ, N.pow_succ_r' in Hn.
        apply N.Div0.div_lt_upper_bound. lia.
Qed.

Lemma log2_fuel n : n < 2 ^ N.of_nat (S (N.to_nat (N.log2 n))).
Proof.
  rewrite Nat2N.inj_succ, N2Nat.id.
  destruct n as [|p]; [reflexivity|].
  apply N.log2_spec. lia.
Qed.

Lemma parseDigits_decimal n :
  parseDigits 10 decDigit None (decimal n) = Some n.
Proof. unfold decimal. rewrite parse_decimal_go by apply log2_fuel. reflexivity. Qed.

Lemma digitsOnly_app s t :
  digitsOnly (s ++ t) = digitsOnly s && digitsOnly t.
Proof.
  induction s as [|c s IH]; simpl; [reflexivity|].
  rewrite IH. apply andb_assoc.
Qed.

Lemma digitsOnly_decimal_go f n acc :
  digitsOnly acc = true -> digitsOnly (decimal_go f n acc) = true.
Proof.
  revert n acc. induction f as [|f IH]; intros n acc Hacc; [exact Hacc|].
  assert (digitsOnly (String (digitChar (n mod 10)) acc) = true) as Hd.
  { cbn [digitsOnly]. rewrite isDigit_digitChar by (apply N.mod_lt; lia).
    exact Hacc. }
  cbn [decimal_go]. destruct (n <? 10); [exact Hd|]. apply IH, Hd.
Qed.

Lemma digitsOnly_decimal n : digitsOnly (decimal n) = true.
Proof. apply digitsOnly_decimal_go. reflexivity. Qed.

Lemma digitsOnly_replicate k : digitsOnly (replicate_char k "0") = true.
Proof. induction k as [|k IH]; [reflexivity|]. cbn. exact IH. Qed.

Lemma length_append s t :
  String.length (s ++ t) = (String.length s + String.length t)%nat.
Proof. induction s as [|c s IH]; simpl; [reflexivity|]. now rewrite IH. Qed.

Lemma length_replicate k c : String.length (replicate_char k c) = k.
Proof. induction k as [|k IH]; simpl; [reflexivity|]. now rewrite IH. Qed.

(** The number of digits of [decimal n]. *)
Lemma length_decimal_go k : forall f n acc,
  n < 2 ^ N.of_nat (S f) -> n < 10 ^ N.of_nat (S k) ->
  (k = 0%nat \/ 10 ^ N.of_nat k <= n) ->
  String.length (decimal_go (S f) n acc) = (S k + String.length acc)%nat.
Proof.
  induction k as [|k IH]; intros f n acc Hf Hlt Hge.
  - change (10 ^ N.of_nat 1) with 10 in Hlt. apply N.ltb_lt in Hlt.
    cbn [decimal_go]. rewrite Hlt. reflexivity.
  - destruct Hge as [Hk|Hge]; [discriminate Hk|].
    assert (10 <= n) as H10.
    { etransitivity; [|exact Hge]. rewrite Nat2N.inj_succ, N.pow_succ_r'.
      assert (1 <= 10 ^ N.of_nat k) by (apply N.neq_0_le_1, N.pow_nonzero; lia).
      lia. }
    destruct f as [|f].
    { change (2 ^ N.of_nat 1) with 2 in Hf. lia. }
    change (decimal_go (S (S f)) n acc) with
      (let acc' := String (digitChar (n mod 10)) acc in
       if n <? 10 then acc' else decimal_go (S f) (n / 10) acc').
    cbv zeta. apply N.ltb_ge in H10 as Hb. rewrite Hb.
    rewrite IH.
    + cbn [String.length]. lia.
    + rewrite Nat2N.inj_succ, N.pow_succ_r' in Hf.
      apply N.Div0.div_lt_upper_bound. lia.
    + rewrite (Nat2N.inj_succ (S k)), N.pow_succ_r' in Hlt.
      apply N.Div0.div_lt_upper_bound. lia.
    + right. rewrite Nat2N.inj_succ, N.pow_succ_r' in Hge.
      apply N.div_le_lower_bound; lia.
Qed.

Lemma length_decimal k n :
  n < 10 ^ N.of_nat (S k) -> (k = 0%nat \/ 10 ^ N.of_nat k <= n) ->
  String.length (decimal n) = S k.
Proof.
  intros Hlt Hge. unfold decimal.
  rewrite (length_decimal_go k) by (try apply log2_fuel; assumption).
  cbn. lia.
Qed.

Lemma length_decimal_go_ge f n acc :
  (String.length acc <= String.length (decimal_go f n acc))%nat.
Proof.
  revert n acc. induction f as [|f IH]; intros n acc; cbn [decimal_go]; [lia|].
  destruct (n <? 10); [cbn [String.length]; lia|].
  etransitivity; [|apply IH]. cbn [String.length]. lia.
Qed.

Lemma length_decimal_pos n : (1 <= String.length (decimal n))%nat.
Proof.
  unfold decimal. cbn [decimal_go]. destruct (n <? 10); [cbn [String.length]; lia|].
  etransitivity; [|apply length_decimal_go_ge]. cbn [String.length]. lia.
Qed.

Lemma length_decimal_go_lower k : forall f n acc,
  n < 2 ^ N.of_nat (S f) -> 10 ^ N.of_nat k <= n ->
  (S k + String.length acc <= String.length (decimal_go (S f) n acc))%nat.
Proof.
  induction k as [|k IH]; intros f n acc Hf Hge.
  - cbn [decimal_go]. destruct (n <? 10); [cbn [String.length]; lia|].
    etransitivity; [|apply length_decimal_go_ge]. cbn [String.length]. lia.
  - assert (10 <= n) as H10.
    { etransitivity; [|exact Hge]. rewrite Nat2N.inj_succ, N.pow_succ_r'.
      assert (1 <= 10 ^ N.of_nat k) by (apply N.neq_0_le_1, N.pow_nonzero; lia).
      lia. }
    destruct f as [|f].
    { change (2 ^ N.of_nat 1) with 2 in Hf. lia. }
    change (decimal_go (S (S f)) n acc) with
      (let acc' := String (digitChar (n mod 10)) acc in
       if n <? 10 then acc' else decimal_go (S f) (n / 10) acc').
    cbv zeta. apply N.ltb_ge in H10 as Hb. rewrite Hb.
    etransitivity; [|apply IH].
    + cbn [String.length]. lia.
    + rewrite Nat2N.inj_succ, N.pow_succ_r' in Hf.
      apply N.Div0.div_lt_upper_bound. lia.
    + rewrite Nat2N.inj_succ, N.pow_succ_r' in Hge.
      apply N.div_le_lower_bound; lia.
Qed.

Lemma length_decimal_lower k n :
  10 ^ N.of_nat k <= n -> (S k <= String.length (decimal n))%nat.
Proof.
  intros Hge. unfold decimal.
  etransitivity; [|apply (length_decimal_go_lower k); [apply log2_fuel|exact Hge]].
  lia.
Qed.

Lemma length_decimal_small n :
  n < 100000 -> (String.length (decimal n) <= 5)%nat.
Proof.
  intros Hn.
  destruct (N.lt_ge_cases n 10) as [H1|H1];
    [rewrite (length_decimal 0 n) by (auto; exact H1); lia|].
  destruct (N.lt_ge_cases n 100) as [H2|H2];
    [rewrite (length_decimal 1 n) by (auto; exact H2); lia|].
  destruct (N.lt_ge_cases n 1000) as [H3|H3];
    [rewrite (length_decimal 2 n) by (auto; exact H3); lia|].
  destruct (N.lt_ge_cases n 10000) as [H4|H4];
    [rewrite (length_decimal 3 n) by (auto; exact H4); lia|].
  rewrite (length_decimal 4 n) by (auto; exact Hn); lia.
Qed.

Lemma length_padStart k c s :
  String.length (padStart k c s) = Nat.max k (String.length s).
Proof. unfold padStart. rewrite length_append, length_replicate. lia. Qed.

Lemma padStart_long k c s :
  (k <= String.length s)%nat -> padStart k c s = s.
Proof.
  intros H. unfold padStart.
  replace (k - String.length s)%nat with 0%nat by lia. reflexivity.
Qed.

(** *** Reading numerals back *)

Lemma parseInt_digits c s :
  digitsOnly (String c s) = true ->
  parseInt (String c s)
  = match parseDigits 10 decDigit None (String c s) with
    | None => NaN
    | Some n => Int (Z.of_N n)
    end.
Proof.
  cbn [digitsOnly]. intros [Hc Hs]%andb_prop.
  destruct (isDigit_inv c Hc) as (Hws & Hm & Hp & _).
  unfold parseInt. cbn [trimStart]. rewrite Hws.
  unfold stripSign. rewrite Hm, Hp.
  assert (stripHexPrefix (String c s) = None) as ->; [|reflexivity].
  destruct s as [|c1 r]; [reflexivity|].
  cbn [digitsOnly] in Hs. apply andb_prop in Hs as [Hc1 _].
  destruct (isDigit_inv c1 Hc1) as (_ & _ & _ & Hx & HX & _).
  cbn [stripHexPrefix]. rewrite Hx, HX, andb_false_r. reflexivity.
Qed.

Lemma parseDigits_zeros k a s :
  parseDigits 10 decDigit (Some a) (replicate_char k "0" ++ s)
  = parseDigits 10 decDigit (Some (a * 10 ^ N.of_nat k)) s.
Proof.
  revert a. induction k as [|k IH]; intros a.
  - simpl. f_equal. f_equal. lia.
  - change (replicate_char (S k) "0" ++ s)
      with (String "0" (replicate_char k "0" ++ s)).
    cbn [parseDigits]. change (decDigit "0") with (Some 0). cbn [default].
    unfold id. rewrite IH. f_equal. f_equal.
    rewrite Nat2N.inj_succ, N.pow_succ_r'. lia.
Qed.

Lemma parseDigits_from_zero c s :
  isDigit c = true ->
  parseDigits 10 decDigit (Some 0) (String c s)
  = parseDigits 10 decDigit None (String c s).
Proof.
  intros Hc. destruct (isDigit_inv c Hc) as (_ & _ & _ & _ & _ & d & Hd).
  cbn [parseDigits]. rewrite Hd. reflexivity.
Qed.

Lemma decimal_cons n : exists c s, decimal n = String c s /\ isDigit c = true.
Proof.
  pose proof (length_decimal_pos n) as Hlen.
  pose proof (digitsOnly_decimal n) as Hd.
  destruct (decimal n) as [|c s]; [cbn in Hlen; lia|].
  cbn [digitsOnly] in Hd. apply andb_prop in Hd as [Hc _]. eauto.
Qed.

Lemma digitsOnly_padStart k n :
  digitsOnly (padStart k "0" (decimal n)) = true.
Proof.
  unfold padStart. rewrite digitsOnly_app, digitsOnly_replicate, digitsOnly_decimal.
  reflexivity.
Qed.

(** Zero padding does not change the number read back. *)
Lemma parseInt_padStart_decimal k n :
  parseInt (padStart k "0" (decimal n)) = Int (Z.of_N n).
Proof.
  pose proof (digitsOnly_padStart k n) as Hd.
  destruct (decimal_cons n) as (c & s & Hdec & Hc).
  assert (parseDigits 10 decDigit None (padStart k "0" (decimal n)) = Some n) as Hp.
  { unfold padStart.
    destruct (k - String.length (decimal n))%nat as [|j].
    - simpl. apply parseDigits_decimal.
    - change (replicate_char (S j) "0" ++ decimal n)
        with (String "0" (replicate_char j "0" ++ decimal n)).
      cbn [parseDigits]. change (decDigit "0") with (Some 0). cbn [default].
      rewrite parseDigits_zeros. rewrite N.mul_0_l.
      rewrite Hdec, parseDigits_from_zero by exact Hc.
      rewrite <- Hdec. apply parseDigits_decimal. }
  destruct (padStart k "0" (decimal n)) as [|c' s'] eqn:Hpad.
  - discriminate Hp.
  - rewrite parseInt_digits by exact Hd. rewrite Hp. reflexivity.
Qed.

Lemma parseInt_decimal n : parseInt (decimal n) = Int (Z.of_N n).
Proof.
  pose proof (parseInt_padStart_decimal 0 n) as H.
  unfold padStart in H. exact H.
Qed.

Lemma numberToString_nonneg z :
  (0 <= z)%Z -> numberToString (Int z) = decimal (Z.to_N z).
Proof.
  intros Hz. unfold numberToString.
  destruct (z <? 0)%Z eqn:Hb; [apply Z.ltb_lt in Hb; lia|reflexivity].
Qed.

(** *** The text after the last dash *)

Lemma hasChar_digitsOnly s : digitsOnly s = true -> hasChar "-" s = false.
Proof.
  induction s as [|c s IH]; [reflexivity|].
  cbn [digitsOnly hasChar]. intros [Hc Hs]%andb_prop.
  destruct (isDigit_inv c Hc) as (_ & Hm & _). rewrite Hm, IH by exact Hs.
  reflexivity.
Qed.

Lemma hasChar_app c s t : hasChar c (s ++ t) = hasChar c s || hasChar c t.
Proof.
  induction s as [|a s IH]; simpl; [reflexivity|].
  rewrite IH. apply orb_assoc.
Qed.

Lemma afterLast_dash s t :
  hasChar "-" t = false -> afterLast "-" (s ++ String "-" t) = t.
Proof.
  intros Ht. induction s as [|a s IH].
  - simpl. rewrite Ht. reflexivity.
  - change (String a s ++ String "-" t) with (String a (s ++ String "-" t)).
    cbn [afterLast]. rewrite hasChar_app. cbn [hasChar].
    rewrite Ascii.eqb_refl, orb_true_r. exact IH.
Qed.

End Numerals.

(** ** Identifiers *)

Section Identifiers.

Local Open Scope Z_scope.

Lemma currentCounter_setItem m st :
  currentCounter (setItem "certificateCounter" (decimal m) st) = Int (Z.of_N m).
Proof.
  unfold currentCounter, getItem, setItem. cbn [localStorage].
  rewrite lookup_insert_eq.
  destruct (decimal_cons m) as (c & s & Hdec & _).
  unfold or_else. rewrite Hdec at 1. cbn [truthy toString].
  apply parseInt_decimal.
Qed.

(** One call, from a counter that reads as [n]. *)
Lemma generateCertificateId_step today st n :
  currentCounter st = Int n -> 0 <= n ->
  generateCertificateId today st
  = ("CERT-" ++ datePart today ++ "-" ++ padStart 5 "0" (decimal (Z.to_N (n + 1))),
     setItem "certificateCounter" (decimal (Z.to_N (n + 1))) st).
Proof.
  intros Hc Hn. unfold generateCertificateId.
  fold (currentCounter st). rewrite Hc. cbn [succ].
  rewrite numberToString_nonneg by lia. reflexivity.
Qed.

Lemma append_assoc (a b c : string) : (a ++ b) ++ c = a ++ b ++ c.
Proof.
  induction a as [|x a IH]; [reflexivity|].
  change (String x ((a ++ b) ++ c) = String x (a ++ b ++ c)). now rewrite IH.
Qed.

Lemma numericSuffix_id prefix k m :
  numericSuffix (prefix ++ "-" ++ padStart k "0" (decimal m)) = Int (Z.of_N m).
Proof.
  unfold numericSuffix.
  change ("-" ++ padStart k "0" (decimal m))
    with (String "-" (padStart k "0" (decimal m))).
  rewrite afterLast_dash by apply hasChar_digitsOnly, digitsOnly_padStart.
  apply parseInt_padStart_decimal.
Qed.

Lemma generateIds_suffixes days : forall st n,
  currentCounter st = Int n -> 0 <= n ->
  numericSuffix <$> (generateIds days st).1
  = Int <$> seqZ (n + 1) (Z.of_nat (length days))
  /\ currentCounter (generateIds days st).2 = Int (n + Z.of_nat (length days)).
Proof.
  induction days as [|today rest IH]; intros st n Hc Hn.
  - cbn. split; [reflexivity|]. rewrite Hc. f_equal. lia.
  - cbn [generateIds]. rewrite (generateCertificateId_step today st n Hc Hn).
    set (st1 := setItem _ _ st).
    assert (currentCounter st1 = Int (n + 1)) as Hc1.
    { subst st1. rewrite currentCounter_setItem. f_equal. lia. }
    destruct (IH st1 (n + 1) Hc1 ltac:(lia)) as [Hs Hf].
    destruct (generateIds rest st1) as [ids st2]. cbn [fst snd] in *.
    split.
    + cbn [length]. rewrite Nat2Z.inj_succ, seqZ_cons by lia.
      rewrite !fmap_cons. f_equal.
      * rewrite <- append_assoc, numericSuffix_id. f_equal. lia.
      * rewrite Hs. f_equal. f_equal; lia.
    + rewrite Hf. f_equal. cbn [length]. lia.
Qed.

(** C3. From a counter that reads as [n >= 0], [N] calls in sequence, each
    with its own reading of the clock (so also across day boundaries), return
    [N] pairwise distinct identifiers: the numeric suffix of the [i]-th one
    is [n + 1 + i], hence strictly increasing, and the persisted counter has
    advanced by exactly [N]. Counters are taken within the range where
    JavaScript numbers are exact integers. *)
Theorem generateIds_distinct_increasing (days : list Date) (st : State) (n : Z) :
  currentCounter st = Int n -> 0 <= n ->
  n + Z.of_nat (length days) <= 2 ^ 53 ->
  let ids := (generateIds days st).1 in
  length ids = length days
  /\ (forall (i : nat) id,
        ids !! i = Some id -> numericSuffix id = Int (n + 1 + Z.of_nat i))
  /\ (forall (i j : nat) a b,
        (i < j)%nat -> ids !! i = Some a -> ids !! j = Some b ->
        exists x y, numericSuffix a = Int x /\ numericSuffix b = Int y /\ x < y)
  /\ NoDup ids
  /\ currentCounter (generateIds days st).2 = Int (n + Z.of_nat (length days)).
Proof.
  intros Hc Hn _ ids.
  destruct (generateIds_suffixes days st n Hc Hn) as [Hs Hf]. fold ids in Hs.
  assert (forall (i : nat) id,
             ids !! i = Some id -> numericSuffix id = Int (n + 1 + Z.of_nat i)) as Hidx.
  { intros i id Hi.
    assert ((numericSuffix <$> ids) !! i = Some (numericSuffix id)) as Hl
      by (rewrite list_lookup_fmap, Hi; reflexivity).
    rewrite Hs, list_lookup_fmap in Hl.
    destruct (seqZ (n + 1) (Z.of_nat (length days)) !! i) as [m|] eqn:Hm;
      [|discriminate Hl].
    apply lookup_seqZ in Hm as [-> _]. cbn in Hl. congruence. }
  repeat split.
  - apply (f_equal length) in Hs. rewrite !length_fmap, length_seqZ in Hs. lia.
  - exact Hidx.
  - intros i j a b Hij Ha Hb. exists (n + 1 + Z.of_nat i), (n + 1 + Z.of_nat j).
    repeat split; [apply Hidx, Ha|apply Hidx, Hb|lia].
  - apply (NoDup_fmap_1 numericSuffix). rewrite Hs.
    apply NoDup_fmap_2; [intros x y Hxy; congruence|apply NoDup_seqZ].
  - exact Hf.
Qed.

(** C4. With a four-digit year, the identifier reads CERT-YYYYMMDD-NNNNN:
    four, two and two digits spelling the year, the month (counted from 1)
    and the day, then the new counter value in decimal, padded with zeros to
    five digits and written in full, unpadded, from 100000 on. *)
Theorem generateCertificateId_format (today : Date) (st : State) (n : Z) :
  currentCounter st = Int n -> 0 <= n -> n < 2 ^ 53 ->
  1000 <= getFullYear today <= 9999 ->
  0 <= getMonth today <= 11 ->
  1 <= getDate today <= 31 ->
  exists yyyy mm dd nnnnn : string,
    (generateCertificateId today st).1 = "CERT-" ++ yyyy ++ mm ++ dd ++ "-" ++ nnnnn
    /\ String.length yyyy = 4%nat /\ String.length mm = 2%nat
    /\ String.length dd = 2%nat
    /\ digitsOnly yyyy = true /\ digitsOnly mm = true /\ digitsOnly dd = true
    /\ parseInt yyyy = Int (getFullYear today)
    /\ parseInt mm = Int (getMonth today + 1)
    /\ parseInt dd = Int (getDate today)
    /\ digitsOnly nnnnn = true
    /\ parseInt nnnnn = Int (n + 1)
    /\ (n + 1 < 100000 -> String.length nnnnn = 5%nat)
    /\ (100000 <= n + 1 ->
        nnnnn = decimal (Z.to_N (n + 1)) /\ (6 <= String.length nnnnn)%nat).
Proof.
  intros Hc Hn _ Hy Hm Hd.
  rewrite (generateCertificateId_step today st n Hc Hn). cbn [fst].
  unfold datePart. rewrite !numberToString_nonneg by lia.
  exists (decimal (Z.to_N (getFullYear today))),
    (padStart 2 "0" (decimal (Z.to_N (getMonth today + 1)))),
    (padStart 2 "0" (decimal (Z.to_N (getDate today)))),
    (padStart 5 "0" (decimal (Z.to_N (n + 1)))).
  assert (String.length (decimal (Z.to_N (getMonth today + 1))) <= 2)%nat as Hlm.
  { pose proof (length_decimal_small (Z.to_N (getMonth today + 1))) as H5.
    destruct (N.lt_ge_cases (Z.to_N (getMonth today + 1)) 10) as [Hlt|Hge].
    - rewrite (length_decimal 0) by (auto; exact Hlt). lia.
    - rewrite (length_decimal 1); [lia| |right; exact Hge].
      change (10 ^ N.of_nat 2)%N with 100%N. lia. }
  assert (String.length (decimal (Z.to_N (getDate today))) <= 2)%nat as Hld.
  { destruct (N.lt_ge_cases (Z.to_N (getDate today)) 10) as [Hlt|Hge].
    - rewrite (length_decimal 0) by (auto; exact Hlt). lia.
    - rewrite (length_decimal 1); [lia| |right; exact Hge].
      change (10 ^ N.of_nat 2)%N with 100%N. lia. }
  repeat split.
  - rewrite !append_assoc. reflexivity.
  - apply (length_decimal 3).
    + change (10 ^ N.of_nat 4)%N with 10000%N. lia.
    + right. change (10 ^ N.of_nat 3)%N with 1000%N. lia.
  - rewrite length_padStart. lia.
  - rewrite length_padStart. lia.
  - apply digitsOnly_decimal.
  - apply digitsOnly_padStart.
  - apply digitsOnly_padStart.
  - rewrite parseInt_decimal. f_equal. lia.
  - rewrite parseInt_padStart_decimal. f_equal. lia.
  - rewrite parseInt_padStart_decimal. f_equal. lia.
  - apply digitsOnly_padStart.
  - rewrite parseInt_padStart_decimal. f_equal. lia.
  - intros Hsmall. rewrite length_padStart.
    pose proof (length_decimal_small (Z.to_N (n + 1)) ltac:(lia)). lia.
  - apply padStart_long.
    pose proof (length_decimal_lower 5 (Z.to_N (n + 1))) as Hl.
    change (10 ^ N.of_nat 5)%N with 100000%N in Hl. lia.
  - rewrite length_padStart.
    pose proof (length_decimal_lower 5 (Z.to_N (n + 1))) as Hl.
    change (10 ^ N.of_nat 5)%N with 100000%N in Hl. lia.
Qed.

Example generateCertificateId_first :
  (generateCertificateId Examples.day1 Examples.emptyStore).1 = "CERT-20240510-00001".
Proof. reflexivity. Qed.

Example generateCertificateId_widens :
  (generateCertificateId Examples.day2
     (setItem "certificateCounter" "99999" Examples.emptyStore)).1
  = "CERT-20240511-100000".
Proof. reflexivity. Qed.

Lemma generateIds_distinct_increasing_witness :
  NoDup (generateIds [Examples.day1; Examples.day2; Examples.day2]
           Examples.emptyStore).1
  /\ currentCounter
       (generateIds [Examples.day1; Examples.day2; Examples.day2]
          Examples.emptyStore).2 = Int 3.
Proof.
  destruct (generateIds_distinct_increasing
              [Examples.day1; Examples.day2; Examples.day2]
              Examples.emptyStore 0)
    as (_ & _ & _ & Hnodup & Hcounter).
  - reflexivity.
  - lia.
  - vm_compute. discriminate.
  - split; [exact Hnodup|exact Hcounter].
Defined.

Lemma generateCertificateId_format_witness :
  exists yyyy mm dd nnnnn : string,
    (generateCertificateId Examples.day1 Examples.emptyStore).1
    = "CERT-" ++ yyyy ++ mm ++ dd ++ "-" ++ nnnnn
    /\ String.length yyyy = 4%nat /\ String.length mm = 2%nat
    /\ String.length dd = 2%nat /\ String.length nnnnn = 5%nat.
Proof.
  destruct (generateCertificateId_format Examples.day1 Examples.emptyStore 0)
    as (yyyy & mm & dd & nnnnn & Hid & Hy & Hm & Hd & _ & _ & _ & _ & _ & _ & _ & _
        & Hfive & _).
  - reflexivity.
  - lia.
  - vm_compute. reflexivity.
  - cbn. lia.
  - cbn. lia.
  - cbn. lia.
  - exists yyyy, mm, dd, nnnnn. repeat split; try assumption.
    apply Hfive. lia.
Defined.

End Identifiers.

(** ** The record store *)

Section Store.

Lemma saveCertificate_with_id today now (data : Obj) pdf st key :
  opens st = true -> data !! "id" = Some (Str key) ->
  let cert : Obj :=
    <["createdAt" := Str (toISOString now)]> (<["pdfDataUrl" := pdf]> data) in
  let st1 := if decide (key = "") then (generateCertificateId today st).2 else st in
  saveCertificate today now data pdf st
  = (Resolved cert, set_certificates (<[key := cert]> (certificates st1)) st1).
Proof.
  intros Hopen Hid cert st1. unfold saveCertificate, initDB. rewrite Hopen.
  assert (prop data "id" = Str key) as Hp by (unfold prop; rewrite Hid; reflexivity).
  rewrite Hp.
  assert (forall v st',
    (let certificate : Obj :=
       <["createdAt" := Str (toISOString now)]>
         (<["pdfDataUrl" := pdf]> (data ∪ {["id" := v]})) in
     match validKey (prop certificate "id") with
     | Some key0 =>
         (Resolved certificate,
          set_certificates (<[key0 := certificate]> (certificates st')) st')
     | None => (Rejected DataError, st')
     end)
    = (Resolved cert, set_certificates (<[key := cert]> (certificates st')) st'))
    as Hput.
  { intros v st'. cbv zeta.
    rewrite (union_singleton_r data "id" (Str key) v Hid). fold cert.
    assert (prop cert "id" = Str key) as ->; [|reflexivity].
    unfold prop, cert. rewrite !lookup_insert_ne by discriminate.
    rewrite Hid. reflexivity. }
  subst st1. destruct key as [|c key].
  - cbn [truthy]. destruct (generateCertificateId today st) as [fresh st'].
    rewrite decide_True by reflexivity. apply Hput.
  - cbn [truthy]. rewrite decide_False by discriminate. apply Hput.
Qed.

Lemma saveCertificate_without_id today now (data : Obj) pdf st :
  opens st = true -> data !! "id" = None ->
  let fresh := (generateCertificateId today st).1 in
  let st1 := (generateCertificateId today st).2 in
  let cert : Obj :=
    <["createdAt" := Str (toISOString now)]>
      (<["pdfDataUrl" := pdf]> (<["id" := Str fresh]> data)) in
  saveCertificate today now data pdf st
  = (Resolved cert, set_certificates (<[fresh := cert]> (certificates st1)) st1).
Proof.
  intros Hopen Hid fresh st1 cert. unfold saveCertificate, initDB. rewrite Hopen.
  assert (prop data "id" = Undefined) as Hp by (unfold prop; rewrite Hid; reflexivity).
  rewrite Hp. cbn [truthy]. subst fresh st1 cert.
  destruct (generateCertificateId today st) as [fresh st1]. cbn [fst snd].
  rewrite <- (insert_union_singleton_r data "id" (Str fresh) Hid).
  set (cert := <["createdAt" := _]> _).
  assert (prop cert "id" = Str fresh) as ->; [|reflexivity].
  unfold prop, cert. rewrite !lookup_insert_ne by discriminate.
  rewrite lookup_insert_eq. reflexivity.
Qed.

(** An [id] property that is there but falsy: the empty string stays the
    key, and an identifier is generated and dropped on the way. *)
Lemma saveCertificate_empty_id today now (data : Obj) pdf st :
  opens st = true -> data !! "id" = Some (Str "") ->
  exists (cert : Obj) st',
    saveCertificate today now data pdf st = (Resolved cert, st')
    /\ cert !! "id" = Some (Str "")
    /\ certificates st' !! "" = Some cert
    /\ localStorage st' = localStorage (generateCertificateId today st).2.
Proof.
  intros Hopen Hid. eexists _, _.
  split; [apply (saveCertificate_with_id today now data pdf st "" Hopen Hid)|].
  cbv zeta. rewrite decide_True by reflexivity.
  cbn [certificates localStorage set_certificates]. repeat split.
  - rewrite !lookup_insert_ne by discriminate. exact Hid.
  - apply lookup_insert_eq.
Qed.

(** An [id] property holding [undefined] or [null] is no key: [put] throws,
    after the counter has been advanced. *)
Lemma saveCertificate_invalid_id today now (data : Obj) pdf st v :
  opens st = true -> data !! "id" = Some v -> validKey v = None ->
  saveCertificate today now data pdf st
  = (Rejected DataError, (generateCertificateId today st).2).
Proof.
  intros Hopen Hid Hv. unfold saveCertificate, initDB. rewrite Hopen.
  assert (prop data "id" = v) as Hp by (unfold prop; rewrite Hid; reflexivity).
  rewrite Hp. assert (truthy v = false) as -> by (destruct v; [reflexivity..|discriminate Hv]).
  destruct (generateCertificateId today st) as [fresh st1]. cbn [snd].
  rewrite (union_singleton_r data "id" v (Str fresh) Hid).
  set (cert := <["createdAt" := _]> _).
  assert (prop cert "id" = v) as ->.
  { unfold prop, cert. rewrite !lookup_insert_ne by discriminate.
    rewrite Hid. reflexivity. }
  rewrite Hv. reflexivity.
Qed.

Lemma set_certificates_same st : set_certificates (certificates st) st = st.
Proof. destruct st; reflexivity. Qed.

(** C1, as the code has it. Saving under an identifier [key] stores the new
    record under [key], whether or not a record was there before: its fields
    are those of the new data, its [pdfDataUrl] the new document, and its
    [createdAt] is the timestamp of this very call. Records under other keys
    are left alone. *)
Theorem saveCertificate_stamps_every_save today now (data : Obj) pdf st key :
  opens st = true -> data !! "id" = Some (Str key) ->
  exists (cert : Obj) st',
    saveCertificate today now data pdf st = (Resolved cert, st')
    /\ certificates st' !! key = Some cert
    /\ cert !! "createdAt" = Some (Str (toISOString now))
    /\ createdAtOf st' key = Some (Str (toISOString now))
    /\ cert !! "pdfDataUrl" = Some pdf
    /\ (forall k, k <> "createdAt" -> k <> "pdfDataUrl" -> cert !! k = data !! k)
    /\ (forall other, other <> key ->
         certificates st' !! other = certificates st !! other).
Proof.
  intros Hopen Hid. eexists _, _.
  split; [apply (saveCertificate_with_id today now data pdf st key Hopen Hid)|].
  cbv zeta. set (cert := <["createdAt" := _]> _).
  set (st1 := if decide (key = "") then _ else st).
  assert (certificates st1 = certificates st) as Hsame.
  { subst st1. destruct (decide (key = "")); reflexivity. }
  unfold createdAtOf. cbn [certificates set_certificates].
  rewrite !lookup_insert_eq. cbn.
  repeat split.
  - apply lookup_insert_eq.
  - apply lookup_insert_eq.
  - unfold cert. rewrite lookup_insert_ne by discriminate. apply lookup_insert_eq.
  - intros k Hk1 Hk2. unfold cert.
    rewrite !lookup_insert_ne by congruence. reflexivity.
  - intros other Hother. rewrite lookup_insert_ne by congruence.
    rewrite Hsame. reflexivity.
Qed.

(** What a save stores. On an open database: data without an [id] property
    is saved under a fresh identifier from [generateCertificateId], which the
    returned record carries and the counter pays for; data whose [id] is a
    string is saved under that very string. In both cases the record is the
    data with [pdfDataUrl] and [createdAt] written over it, and the store is
    the old one with that record put under the key. *)
Theorem saveCertificate_assigns_or_reuses_id today now (data : Obj) pdf st :
  opens st = true ->
  (data !! "id" = None ->
   exists (cert : Obj) st',
     saveCertificate today now data pdf st = (Resolved cert, st')
     /\ cert !! "id" = Some (Str (generateCertificateId today st).1)
     /\ certificates st' !! (generateCertificateId today st).1 = Some cert
     /\ localStorage st' = localStorage (generateCertificateId today st).2
     /\ cert = <["createdAt" := Str (toISOString now)]>
                (<["pdfDataUrl" := pdf]>
                   (<["id" := Str (generateCertificateId today st).1]> data))
     /\ certificates st'
        = <[(generateCertificateId today st).1 := cert]> (certificates st))
  /\ (forall key, data !! "id" = Some (Str key) ->
      exists (cert : Obj) st',
        saveCertificate today now data pdf st = (Resolved cert, st')
        /\ cert !! "id" = Some (Str key)
        /\ certificates st' !! key = Some cert
        /\ cert = <["createdAt" := Str (toISOString now)]>
                   (<["pdfDataUrl" := pdf]> data)
        /\ certificates st' = <[key := cert]> (certificates st)).
Proof.
  intros Hopen. split.
  - intros Hid. eexists _, _.
    split; [apply (saveCertificate_without_id today now data pdf st Hopen Hid)|].
    cbv zeta. cbn [certificates localStorage set_certificates].
    repeat split.
    + rewrite !lookup_insert_ne by discriminate. apply lookup_insert_eq.
    + apply lookup_insert_eq.
  - intros key Hid. eexists _, _.
    split; [apply (saveCertificate_with_id today now data pdf st key Hopen Hid)|].
    cbv zeta. cbn [certificates set_certificates]. split; [|split; [|split]].
    + rewrite !lookup_insert_ne by discriminate. exact Hid.
    + apply lookup_insert_eq.
    + reflexivity.
    + destruct (decide (key = "")); reflexivity.
Qed.

(** C9. On an open database, deleting an identifier under which nothing is
    stored resolves to [true] and leaves the whole state as it was; and
    deleting any identifier a second time does the same. *)
Theorem deleteCertificate_missing_is_noop (id : string) st :
  opens st = true ->
  (certificates st !! id = None ->
   deleteCertificate (Str id) st = (Resolved true, st))
  /\ (deleteCertificate (Str id) st).1 = Resolved true
  /\ deleteCertificate (Str id) (deleteCertificate (Str id) st).2
     = (Resolved true, (deleteCertificate (Str id) st).2).
Proof.
  intros Hopen. unfold deleteCertificate, initDB. rewrite Hopen.
  cbn [validKey fst snd opens set_certificates]. rewrite Hopen.
  repeat split.
  - intros Hnone. rewrite delete_id by exact Hnone.
    rewrite set_certificates_same. reflexivity.
  - unfold set_certificates. cbn [certificates localStorage opens].
    rewrite delete_delete_eq. reflexivity.
Qed.

(** *** Searching *)

Lemma getAllCertificates_open st :
  opens st = true ->
  getAllCertificates st
  = Resolved ((merge_sort key_le (map_to_list (certificates st))).*2).
Proof. intros Hopen. unfold getAllCertificates, initDB. now rewrite Hopen. Qed.

Lemma elem_of_getAll st all (cert : Obj) :
  getAllCertificates st = Resolved all ->
  cert ∈ all <-> exists key, certificates st !! key = Some cert.
Proof.
  unfold getAllCertificates. destruct (initDB st); [|discriminate].
  intros [= <-]. rewrite list_elem_of_fmap. split.
  - intros ([key c] & -> & Hin). rewrite merge_sort_Permutation in Hin.
    apply elem_of_map_to_list in Hin. eauto.
  - intros [key Hkey]. exists (key, cert). split; [reflexivity|].
    rewrite merge_sort_Permutation. now apply elem_of_map_to_list.
Qed.

Lemma filterCerts_total (p : Obj -> Outcome bool) (q : Obj -> bool) l :
  (forall c, c ∈ l -> p c = Resolved (q c)) ->
  filterCerts p l = Resolved (List.filter q l).
Proof.
  induction l as [|c l IH]; intros Hp; [reflexivity|].
  cbn [filterCerts List.filter]. rewrite Hp by apply list_elem_of_here.
  rewrite IH by (intros c' Hc'; apply Hp, list_elem_of_further, Hc').
  destruct (q c); reflexivity.
Qed.


Lemma matchesTerm_searchable fmt term (cert : Obj) :
  searchable cert = true ->
  matchesTerm fmt term cert
  = Resolved (matchesNamedFields term cert
              || includes (localeDateOf fmt (prop cert "date")) term).
Proof.
  unfold searchable, matchesTerm, matchesNamedFields, fieldIncludes.
  intros [[Hi Hp]%andb_prop He]%andb_prop.
  destruct (prop cert "id") as [| |i]; try discriminate Hi.
  destruct (prop cert "participantName") as [| |pn]; try discriminate Hp.
  destruct (prop cert "eventName") as [| |en]; try discriminate He.
  cbn [lowered].
  destruct (includes (toLowerCase i) term); [reflexivity|].
  destruct (includes (toLowerCase pn) term); [reflexivity|].
  destruct (includes (toLowerCase en) term); reflexivity.
Qed.

Lemma searchCertificates_blank fmt searchTerm st :
  blankTerm searchTerm = true ->
  searchCertificates fmt searchTerm st = getAllCertificates st.
Proof.
  intros Hb. unfold searchCertificates.
  destruct (getAllCertificates st) as [all|e]; [|reflexivity].
  destruct searchTerm as [| |s]; try reflexivity.
  cbn [blankTerm] in Hb. rewrite Hb, orb_true_r. reflexivity.
Qed.

Lemma searchCertificates_term fmt searchTerm st all :
  blankTerm searchTerm = false ->
  getAllCertificates st = Resolved all ->
  searchCertificates fmt searchTerm st
  = filterCerts (matchesTerm fmt (termOf searchTerm)) all.
Proof.
  intros Hb Hall. unfold searchCertificates. rewrite Hall.
  destruct searchTerm as [| |s]; try discriminate Hb.
  cbn [blankTerm termOf] in *. rewrite Hb, orb_false_r.
  destruct s as [|c s]; [discriminate Hb|]. reflexivity.
Qed.

(** The filter as the code has it. Over records whose searched fields are
    strings: a blank term (absent, empty, white space only) returns the records of
    [getAllCertificates]; any other term returns, in the same order, exactly
    those records of which [id], [participantName] or [eventName] contains
    the lower-cased, trimmed term, or of which the [date] property, printed
    as a locale date, contains it. So every record matching on the three
    named fields is returned, and whatever else is returned matched on the
    printed date. *)
Theorem searchCertificates_filters fmt searchTerm st :
  opens st = true ->
  (forall key (cert : Obj),
      certificates st !! key = Some cert -> searchable cert = true) ->
  exists all,
    getAllCertificates st = Resolved all
    /\ searchCertificates fmt searchTerm st
       = Resolved
           (if blankTerm searchTerm then all
            else List.filter
                   (fun cert =>
                      matchesNamedFields (termOf searchTerm) cert
                      || includes (localeDateOf fmt (prop cert "date"))
                                  (termOf searchTerm))
                   all)
    /\ (blankTerm searchTerm = false ->
        forall cert found,
          searchCertificates fmt searchTerm st = Resolved found ->
          (cert ∈ all -> matchesNamedFields (termOf searchTerm) cert = true ->
           cert ∈ found)
          /\ (cert ∈ found ->
              cert ∈ all
              /\ (matchesNamedFields (termOf searchTerm) cert = true
                  \/ includes (localeDateOf fmt (prop cert "date"))
                              (termOf searchTerm) = true))).
Proof.
  intros Hopen Hwf. eexists. split; [apply getAllCertificates_open, Hopen|].
  set (all := (merge_sort key_le (map_to_list (certificates st))).*2).
  assert (getAllCertificates st = Resolved all) as Hall
    by apply getAllCertificates_open, Hopen.
  assert (forall c, c ∈ all -> searchable c = true) as Hs.
  { intros c Hc. apply (elem_of_getAll st all c Hall) in Hc as [key Hkey]. eauto. }
  assert (blankTerm searchTerm = false ->
          searchCertificates fmt searchTerm st
          = Resolved
              (List.filter
                 (fun cert =>
                    matchesNamedFields (termOf searchTerm) cert
                    || includes (localeDateOf fmt (prop cert "date"))
                                (termOf searchTerm)) all)) as Hterm.
  { intros Hb. rewrite (searchCertificates_term fmt searchTerm st all Hb Hall).
    apply filterCerts_total. intros c Hc. apply matchesTerm_searchable, Hs, Hc. }
  split.
  - destruct (blankTerm searchTerm) eqn:Hb.
    + rewrite searchCertificates_blank by exact Hb. exact Hall.
    + apply Hterm. reflexivity.
  - intros Hb cert found Hfound. rewrite (Hterm Hb) in Hfound.
    injection Hfound as <-. rewrite !list_elem_of_In, List.filter_In.
    rewrite orb_true_iff. tauto.
Qed.


(** *** The theorems at work on the sample data *)

Lemma carlosSaved_records :
  certificates Examples.carlosSaved
  = {[ "CERT-20240510-00001" := Examples.carlosRecord ]}.
Proof. vm_compute. reflexivity. Qed.

Lemma carlosSaved_searchable key (cert : Obj) :
  certificates Examples.carlosSaved !! key = Some cert ->
  searchable cert = true /\ prop cert "date" = Undefined.
Proof.
  rewrite carlosSaved_records. intros [_ <-]%lookup_singleton_Some.
  split; reflexivity.
Qed.

(** C1, refuted as stated: the record saved on 10 May is saved again, edited,
    on 11 May, and its [createdAt] becomes the timestamp of 11 May. *)
Lemma resave_overwrites_createdAt :
  createdAtOf Examples.carlosSaved "CERT-20240510-00001"
  = Some (Str "2024-05-10T15:04:05.000Z")
  /\ createdAtOf
       (saveCertificate Examples.day2 Examples.day2 Examples.carlosEdited
          (Str "data:application/pdf;base64,BBBB") Examples.carlosSaved).2
       "CERT-20240510-00001"
     = Some (Str "2024-05-11T09:30:00.000Z")
  /\ createdAtOf
       (saveCertificate Examples.day2 Examples.day2 Examples.carlosEdited
          (Str "data:application/pdf;base64,BBBB") Examples.carlosSaved).2
       "CERT-20240510-00001"
     <> createdAtOf Examples.carlosSaved "CERT-20240510-00001".
Proof. vm_compute. repeat split. discriminate. Qed.

Lemma saveCertificate_stamps_every_save_witness :
  exists (cert : Obj) st',
    saveCertificate Examples.day2 Examples.day2 Examples.carlosEdited
      (Str "data:application/pdf;base64,BBBB") Examples.carlosSaved
    = (Resolved cert, st')
    /\ createdAtOf st' "CERT-20240510-00001"
       = Some (Str "2024-05-11T09:30:00.000Z").
Proof.
  destruct (saveCertificate_stamps_every_save Examples.day2 Examples.day2
              Examples.carlosEdited (Str "data:application/pdf;base64,BBBB")
              Examples.carlosSaved "CERT-20240510-00001")
    as (cert & st' & Hsave & _ & _ & Hcreated & _).
  - reflexivity.
  - reflexivity.
  - exists cert, st'. split; [exact Hsave|exact Hcreated].
Defined.

Lemma saveCertificate_assigns_or_reuses_id_witness :
  (exists (cert : Obj) st',
      saveCertificate Examples.day1 Examples.day1 Examples.carlosNoId
        (Str "data:application/pdf;base64,AAAA") Examples.emptyStore
      = (Resolved cert, st')
      /\ cert !! "id"
         = Some (Str (generateCertificateId Examples.day1 Examples.emptyStore).1))
  /\ (exists (cert : Obj) st',
        saveCertificate Examples.day1 Examples.day1 Examples.carlos
          (Str "data:application/pdf;base64,AAAA") Examples.emptyStore
        = (Resolved cert, st')
        /\ cert !! "id" = Some (Str "CERT-20240510-00001")).
Proof.
  split.
  - destruct (proj1 (saveCertificate_assigns_or_reuses_id Examples.day1
                       Examples.day1 Examples.carlosNoId
                       (Str "data:application/pdf;base64,AAAA")
                       Examples.emptyStore eq_refl) eq_refl)
      as (cert & st' & Hsave & Hid & _).
    exists cert, st'. split; [exact Hsave|exact Hid].
  - destruct (proj2 (saveCertificate_assigns_or_reuses_id Examples.day1
                       Examples.day1 Examples.carlos
                       (Str "data:application/pdf;base64,AAAA")
                       Examples.emptyStore eq_refl)
                "CERT-20240510-00001" eq_refl)
      as (cert & st' & Hsave & Hid & _).
    exists cert, st'. split; [exact Hsave|exact Hid].
Defined.

Lemma deleteCertificate_missing_is_noop_witness :
  deleteCertificate (Str "CERT-20240510-00002") Examples.carlosSaved
  = (Resolved true, Examples.carlosSaved).
Proof.
  apply (proj1 (deleteCertificate_missing_is_noop "CERT-20240510-00002"
                  Examples.carlosSaved eq_refl)).
  reflexivity.
Defined.

(** C2, where the code departs from it. The stored record has no [date]
    property; the filter reads it all the same, and the date it prints,
    "Invalid Date", contains the term "valid". Neither [id], [participantName]
    nor [eventName] of the record contains the term, yet the search returns
    the record. *)
Lemma search_returns_unmatched_record :
  searchCertificates Examples.plainLocale (Str "valid") Examples.carlosSaved
  = Resolved [Examples.carlosRecord]
  /\ matchesNamedFields (termOf (Str "valid")) Examples.carlosRecord = false
  /\ getAllCertificates Examples.carlosSaved = Resolved [Examples.carlosRecord]
  /\ prop Examples.carlosRecord "date" = Undefined
  /\ localeDateOf Examples.plainLocale (prop Examples.carlosRecord "date")
     = "Invalid Date".
Proof. vm_compute. repeat split; reflexivity. Qed.

(** C5, where the code departs from it. Data whose [id] property holds
    [undefined] or [null] carries no identifier. The save draws a fresh one,
    "CERT-20240510-00001", and advances the counter to 1; the spread of the
    data then writes the empty [id] back over it, [put] finds no key, and the
    save is rejected with nothing stored. *)
Lemma saveCertificate_drops_fresh_id :
  let pdf := Str "data:application/pdf;base64,AAAA" in
  let noId := <["id" := Undefined]> Examples.carlos in
  let nullId := <["id" := Null]> Examples.carlos in
  truthy (prop noId "id") = false
  /\ (generateCertificateId Examples.day1 Examples.emptyStore).1
     = "CERT-20240510-00001"
  /\ (saveCertificate Examples.day1 Examples.day1 noId pdf Examples.emptyStore).1
     = Rejected DataError
  /\ (saveCertificate Examples.day1 Examples.day1 nullId pdf Examples.emptyStore).1
     = Rejected DataError
  /\ getItem
       (saveCertificate Examples.day1 Examples.day1 noId pdf Examples.emptyStore).2
       "certificateCounter"
     = Str "1"
  /\ certificates
       (saveCertificate Examples.day1 Examples.day1 noId pdf Examples.emptyStore).2
     = ∅
  /\ getCertificateById (Str "CERT-20240510-00001")
       (saveCertificate Examples.day1 Examples.day1 noId pdf Examples.emptyStore).2
     = Resolved None.
Proof. vm_compute. repeat split; reflexivity. Qed.

Lemma searchCertificates_filters_witness :
  exists all,
    getAllCertificates Examples.carlosSaved = Resolved all
    /\ searchCertificates Examples.plainLocale (Str " RUIZ ") Examples.carlosSaved
       = Resolved
           (List.filter
              (fun cert =>
                 matchesNamedFields "ruiz" cert
                 || includes (localeDateOf Examples.plainLocale (prop cert "date"))
                             "ruiz")
              all).
Proof.
  destruct (searchCertificates_filters Examples.plainLocale (Str " RUIZ ")
              Examples.carlosSaved)
    as (all & Hall & Hsearch & _).
  - reflexivity.
  - intros key cert Hkey. apply (carlosSaved_searchable key cert Hkey).
  - exists all. split; [exact Hall|exact Hsearch].
Defined.


End Store.

(** ** The document composer *)

Section Compose.

Import PDFGenerator.
Local Open Scope Q_scope.

(** C8. A role that is neither 'Ponente' nor 'Organizador' (a string or
    not) gets the 'Asistente' paragraph, the very text produced for the role
    'Asistente'. *)
Theorem getRoleSpecificText_fallback (data : Obj) :
  prop data "participantRole" <> Str "Ponente" ->
  prop data "participantRole" <> Str "Organizador" ->
  getRoleSpecificText data = asistenteText data
  /\ getRoleSpecificText data
     = getRoleSpecificText (<["participantRole" := Str "Asistente"]> data).
Proof.
  intros Hp Ho.
  assert (getRoleSpecificText data = asistenteText data) as Hdef.
  { unfold getRoleSpecificText. cbv zeta.
    rewrite decide_False by exact Hp. rewrite decide_False by exact Ho.
    reflexivity. }
  split; [exact Hdef|]. rewrite Hdef.
  unfold getRoleSpecificText, asistenteText, prop. cbv zeta.
  rewrite lookup_insert_eq. cbn [default].
  rewrite decide_False by discriminate. rewrite decide_False by discriminate.
  rewrite !lookup_insert_ne by discriminate. reflexivity.
Qed.

Variable host : Host.

Lemma constrainWidth_bounds (w h : Q) :
  0 < w -> 0 < (constrainWidth host (w, h)).1 <= 50.
Proof.
  intros Hw. unfold constrainWidth, maxLogoWidth.
  destruct (Qlt_le_dec 50 w); cbn [fst]; lra.
Qed.

Lemma constrainHeight_bounds (w h : Q) :
  monotoneRounding (rnd host) -> rnd host 1 == 1 -> rnd host 50 == 50 ->
  0 <= w <= 50 ->
  (constrainHeight host (w, h)).1 <= 50 /\ (constrainHeight host (w, h)).2 <= 50.
Proof.
  intros Hmono H1 H50 Hw. unfold constrainHeight, maxLogoHeight.
  destruct (Qlt_le_dec 50 h) as [Hlt|Hle]; cbn [fst snd]; [|lra].
  split; [|lra]. unfold fmul, fdiv.
  assert (rnd host (50 / h) <= 1) as Hr.
  { apply Qle_trans with (rnd host 1); [|rewrite H1; apply Qle_refl].
    apply Hmono. apply Qle_shift_div_r; lra. }
  apply Qle_trans with (rnd host 50); [|rewrite H50; apply Qle_refl].
  apply Hmono. nra.
Qed.

Lemma constrainWidth_exact (w h : Q) :
  exactArithmetic (rnd host) -> 0 < w ->
  (constrainWidth host (w, h)).1 * h == (constrainWidth host (w, h)).2 * w.
Proof.
  intros Hex Hw. unfold constrainWidth, maxLogoWidth.
  destruct (Qlt_le_dec 50 w); cbn [fst snd]; [|ring].
  unfold exactArithmetic in Hex. unfold fmul, fdiv. rewrite Hex, Hex. field. lra.
Qed.

Lemma constrainHeight_exact (w h : Q) :
  exactArithmetic (rnd host) -> 0 < h ->
  (constrainHeight host (w, h)).1 * h == (constrainHeight host (w, h)).2 * w.
Proof.
  intros Hex Hh. unfold constrainHeight, maxLogoHeight.
  destruct (Qlt_le_dec 50 h); cbn [fst snd]; [|ring].
  unfold exactArithmetic in Hex. unfold fmul, fdiv. rewrite Hex, Hex. field. lra.
Qed.

Lemma constrainWidth_height_pos (w h : Q) :
  exactArithmetic (rnd host) -> 0 < w -> 0 < h -> 0 < (constrainWidth host (w, h)).2.
Proof.
  intros Hex Hw Hh. unfold constrainWidth, maxLogoWidth.
  destruct (Qlt_le_dec 50 w); cbn [snd]; [|exact Hh].
  unfold exactArithmetic in Hex. unfold fmul, fdiv. rewrite Hex, Hex.
  apply Qmult_lt_0_compat; [exact Hh|]. apply Qlt_shift_div_l; lra.
Qed.

Lemma tolerance_refl (e x : Q) :
  0 <= e < 1 -> 0 <= x ->
  (1 - e) * (1 - e) * x <= x /\ x <= (1 + e) * (1 + e) * x.
Proof.
  intros He Hx.
  assert ((1 - e) * (1 - e) <= 1) as Hl by nra.
  assert (1 <= (1 + e) * (1 + e)) as Hu by nra.
  split.
  - apply Qle_trans with (1 * x); [apply Qmult_le_compat_r; assumption|lra].
  - apply Qle_trans with (1 * x); [lra|apply Qmult_le_compat_r; assumption].
Qed.

(** Up to rounding, each constraint keeps the proportions. *)
Lemma constrainWidth_tolerance (e w h : Q) :
  0 <= e < 1 -> relativeError e (rnd host) -> 0 < w -> 0 < h ->
  let W := (constrainWidth host (w, h)).1 in
  let H := (constrainWidth host (w, h)).2 in
  0 < W /\ 0 < H
  /\ (1 - e) * (1 - e) * (W * h) <= H * w
  /\ H * w <= (1 + e) * (1 + e) * (W * h).
Proof.
  intros He Hrel Hw Hh. unfold constrainWidth, maxLogoWidth.
  destruct (Qlt_le_dec 50 w) as [Hlt|Hle]; cbn [fst snd]; cbv zeta.
  - unfold fmul, fdiv.
    assert (0 < 50 / w) as Hq by (apply Qlt_shift_div_l; lra).
    assert (50 / w * w == 50) as Hqw by (field; lra).
    destruct (Hrel (50 / w) ltac:(lra)) as [Hr1 Hr2].
    set (q := 50 / w) in *. set (r := rnd host q) in *.
    assert (0 < r) as Hr by nra.
    destruct (Hrel (h * r) ltac:(nra)) as [Hh1 Hh2].
    set (H1 := rnd host (h * r)) in *.
    assert (0 < h * r) as Hhr by nra.
    assert ((1 - e) * 50 <= r * w) as Hrw1 by nra.
    assert (r * w <= (1 + e) * 50) as Hrw2 by nra.
    assert ((1 - e) * (h * (r * w)) <= H1 * w) as Hl by nra.
    assert (H1 * w <= (1 + e) * (h * (r * w))) as Hu by nra.
    assert (h * ((1 - e) * 50) <= h * (r * w)) as Hl' by nra.
    assert (h * (r * w) <= h * ((1 + e) * 50)) as Hu' by nra.
    assert ((1 - e) * (h * ((1 - e) * 50)) <= (1 - e) * (h * (r * w))) as Hl''
      by (apply Qmult_le_l; lra).
    assert ((1 + e) * (h * (r * w)) <= (1 + e) * (h * ((1 + e) * 50))) as Hu''
      by (apply Qmult_le_l; lra).
    assert (0 < (1 - e) * (h * r)) as Hpos by (apply Qmult_lt_0_compat; lra).
    repeat split; lra.
  - assert (0 <= w * h) as Hwh by nra.
    destruct (tolerance_refl e (w * h) He Hwh) as [Hl Hu].
    repeat split; lra.
Qed.

Lemma constrainHeight_tolerance (e w h : Q) :
  0 <= e < 1 -> relativeError e (rnd host) -> 0 < w -> 0 < h ->
  let W := (constrainHeight host (w, h)).1 in
  let H := (constrainHeight host (w, h)).2 in
  0 < W /\ 0 < H
  /\ (1 - e) * (1 - e) * (H * w) <= W * h
  /\ W * h <= (1 + e) * (1 + e) * (H * w).
Proof.
  intros He Hrel Hw Hh. unfold constrainHeight, maxLogoHeight.
  destruct (Qlt_le_dec 50 h) as [Hlt|Hle]; cbn [fst snd]; cbv zeta.
  - unfold fmul, fdiv.
    assert (0 < 50 / h) as Hq by (apply Qlt_shift_div_l; lra).
    assert (50 / h * h == 50) as Hqh by (field; lra).
    destruct (Hrel (50 / h) ltac:(lra)) as [Hr1 Hr2].
    set (q := 50 / h) in *. set (r := rnd host q) in *.
    assert (0 < r) as Hr by nra.
    destruct (Hrel (w * r) ltac:(nra)) as [Hw1 Hw2].
    set (W1 := rnd host (w * r)) in *.
    assert (0 < w * r) as Hwr by nra.
    assert ((1 - e) * 50 <= r * h) as Hrh1 by nra.
    assert (r * h <= (1 + e) * 50) as Hrh2 by nra.
    assert ((1 - e) * (w * (r * h)) <= W1 * h) as Hl by nra.
    assert (W1 * h <= (1 + e) * (w * (r * h))) as Hu by nra.
    assert (w * ((1 - e) * 50) <= w * (r * h)) as Hl' by nra.
    assert (w * (r * h) <= w * ((1 + e) * 50)) as Hu' by nra.
    assert ((1 - e) * (w * ((1 - e) * 50)) <= (1 - e) * (w * (r * h))) as Hl''
      by (apply Qmult_le_l; lra).
    assert ((1 + e) * (w * (r * h)) <= (1 + e) * (w * ((1 + e) * 50))) as Hu''
      by (apply Qmult_le_l; lra).
    assert (0 < (1 - e) * (w * r)) as Hpos by (apply Qmult_lt_0_compat; lra).
    repeat split; lra.
  - assert (0 <= h * w) as Hwh by nra.
    destruct (tolerance_refl e (h * w) He Hwh) as [Hl Hu].
    repeat split; lra.
Qed.

(** The two constraints in sequence: the errors of both compound. *)
Lemma logoSize_tolerance (e w h : Q) :
  0 <= e < 1 -> relativeError e (rnd host) -> 0 < w -> 0 < h ->
  let W := (constrainHeight host (constrainWidth host (w, h))).1 in
  let H := (constrainHeight host (constrainWidth host (w, h))).2 in
  (1 - e) * (1 - e) * (W * h) <= (1 + e) * (1 + e) * (H * w)
  /\ (1 - e) * (1 - e) * (H * w) <= (1 + e) * (1 + e) * (W * h).
Proof.
  intros He Hrel Hw Hh.
  destruct (constrainWidth_tolerance e w h He Hrel Hw Hh)
    as (Hw1 & Hh1 & Al & Au).
  destruct (constrainWidth host (w, h)) as [w1 h1]. cbn [fst snd] in *.
  destruct (constrainHeight_tolerance e w1 h1 He Hrel Hw1 Hh1)
    as (Hw2 & Hh2 & Bl & Bu).
  destruct (constrainHeight host (w1, h1)) as [w2 h2]. cbn [fst snd] in *.
  cbv zeta.
  set (a := (1 - e) * (1 - e)) in *. set (b := (1 + e) * (1 + e)) in *.
  assert (0 <= a) as Ha by (subst a; nra).
  assert (0 < w1 * h1) as Hp by nra.
  assert (0 <= w1 * h) as P1 by nra.
  assert (0 <= w2 * h1) as P2 by nra.
  assert (0 <= h2 * w1) as P3 by nra.
  assert (0 <= h1 * w) as P4 by nra.
  split.
  - apply (Qmult_le_l _ _ (w1 * h1) Hp).
    assert (a * (w1 * h) * (w2 * h1) <= h1 * w * (b * (h2 * w1))) as M.
    { apply Qmult_le_compat_nonneg; split; try assumption.
      apply Qmult_le_0_compat; assumption. }
    lra.
  - apply (Qmult_le_l _ _ (w1 * h1) Hp).
    assert (a * (h2 * w1) * (h1 * w) <= w2 * h1 * (b * (w1 * h))) as M.
    { apply Qmult_le_compat_nonneg; split; try assumption.
      apply Qmult_le_0_compat; assumption. }
    lra.
Qed.

(** Each constraint, spelled out in exact arithmetic. *)
Lemma constrainWidth_pinned (w h : Q) :
  exactArithmetic (rnd host) -> 0 < w ->
  (50 < w
   /\ (constrainWidth host (w, h)).1 == 50
   /\ (constrainWidth host (w, h)).2 == h * 50 / w)
  \/ (w <= 50 /\ constrainWidth host (w, h) = (w, h)).
Proof.
  intros Hex Hw. unfold exactArithmetic in Hex.
  unfold constrainWidth, maxLogoWidth.
  destruct (Qlt_le_dec 50 w) as [Hlt|Hle]; cbn [fst snd];
    [left|right; split; [exact Hle|reflexivity]].
  split; [exact Hlt|]. split; [reflexivity|].
  unfold fmul, fdiv. rewrite Hex, Hex. field. lra.
Qed.

Lemma constrainHeight_pinned (w h : Q) :
  exactArithmetic (rnd host) -> 0 < h ->
  (50 < h
   /\ (constrainHeight host (w, h)).1 == w * 50 / h
   /\ (constrainHeight host (w, h)).2 == 50)
  \/ (h <= 50 /\ constrainHeight host (w, h) = (w, h)).
Proof.
  intros Hex Hh. unfold exactArithmetic in Hex.
  unfold constrainHeight, maxLogoHeight.
  destruct (Qlt_le_dec 50 h) as [Hlt|Hle]; cbn [fst snd];
    [left|right; split; [exact Hle|reflexivity]].
  split; [exact Hlt|]. split; [|reflexivity].
  unfold fmul, fdiv. rewrite Hex, Hex. field. lra.
Qed.

(** The two in sequence fit the larger side of the image to 50. *)
Lemma logoSize_closed_form (w h : Q) :
  exactArithmetic (rnd host) -> 0 < w -> 0 < h ->
  let W := (constrainHeight host (constrainWidth host (w, h))).1 in
  let H := (constrainHeight host (constrainWidth host (w, h))).2 in
  (50 < w -> h <= w -> W == 50 /\ H == 50 * h / w)
  /\ (50 < h -> w <= h -> W == 50 * w / h /\ H == 50).
Proof.
  intros Hex Hw Hh.
  pose proof (constrainWidth_height_pos w h Hex Hw Hh) as Hp.
  pose proof (constrainWidth_bounds w h Hw) as Hb.
  destruct (constrainWidth_pinned w h Hex Hw) as [(Hlt & E1 & E2)|[Hle E]].
  - destruct (constrainWidth host (w, h)) as [w1 h1]. cbn [fst snd] in *.
    assert (h1 * w == h * 50) as Hq by (rewrite E2; field; lra).
    destruct (constrainHeight_pinned w1 h1 Hex Hp) as [(Hlt1 & F1 & F2)|[Hle1 F]].
    + cbv zeta. split.
      * intros _ Hhw. exfalso. nra.
      * intros _ Hwh. split; [|exact F2].
        rewrite F1, E1.
        apply (Qmult_inj_r _ _ (h1 * h)); [nra|].
        transitivity (50 * 50 * h); [field; lra|].
        transitivity (50 * w * h1); [rewrite <- (Qmult_assoc 50 w h1), (Qmult_comm w h1), Hq; ring|].
        field. lra.
    + rewrite F. cbn [fst snd]. cbv zeta. split.
      * intros _ _. split; [exact E1|]. rewrite E2. field. lra.
      * intros Hh50 Hwh. assert (w == h) as Ewh by nra.
        split.
        -- rewrite E1. rewrite Ewh. field. lra.
        -- assert (h1 * h == 50 * h) as Hh1 by (rewrite <- Ewh at 1; rewrite Hq; ring).
           apply Qmult_inj_r in Hh1; [exact Hh1|lra].
  - rewrite E. destruct (constrainHeight_pinned w h Hex Hh) as [(Hlt1 & F1 & F2)|[Hle1 F]].
    + cbv zeta. split; [intros Hc; lra|].
      intros _ _. split; [rewrite F1; field; lra|exact F2].
    + cbv zeta. split; intros Hc; lra.
Qed.

(** A scaled logo touches the box on one side, whatever the rounding. *)
Lemma logoSize_touches_box (w h : Q) :
  50 < w \/ 50 < h ->
  (constrainHeight host (constrainWidth host (w, h))).1 = 50
  \/ (constrainHeight host (constrainWidth host (w, h))).2 = 50.
Proof.
  intros Hbig. unfold constrainWidth, constrainHeight, maxLogoWidth, maxLogoHeight.
  destruct (Qlt_le_dec 50 w) as [Hw|Hw].
  - match goal with |- context [Qlt_le_dec 50 ?x] => destruct (Qlt_le_dec 50 x) end;
      cbn [fst snd]; auto.
  - destruct (Qlt_le_dec 50 h) as [Hh|Hh]; cbn [fst snd]; [auto|].
    destruct Hbig; lra.
Qed.

Lemma logoSize_positive (e w h : Q) :
  0 <= e < 1 -> relativeError e (rnd host) -> 0 < w -> 0 < h ->
  0 < (constrainHeight host (constrainWidth host (w, h))).1
  /\ 0 < (constrainHeight host (constrainWidth host (w, h))).2.
Proof.
  intros He Hrel Hw Hh.
  destruct (constrainWidth_tolerance e w h He Hrel Hw Hh) as (Hw1 & Hh1 & _).
  destruct (constrainWidth host (w, h)) as [w1 h1]. cbn [fst snd] in *.
  destruct (constrainHeight_tolerance e w1 h1 He Hrel Hw1 Hh1) as (Hw2 & Hh2 & _).
  split; assumption.
Qed.

(** C7. For an image of positive width and height: the drawn size is the
    height constraint applied to the result of the width constraint; it
    stays within 50 by 50 under any rounding that is monotone and leaves 1
    and 50 alone; it has the proportions of the image, exactly in exact
    arithmetic and up to the factor ((1 + e) / (1 - e))^2 when every
    operation is rounded with relative error at most [e]; and an image
    already within 50 by 50 keeps its size. An image that exceeds the box is
    drawn with one side exactly 50, and both sides positive under bounded
    relative error. In exact arithmetic the size is the image scaled so that
    its larger side is 50, reached in two steps: the width constraint
    makes a width above 50 into 50 and multiplies the height by 50 / width,
    then the height constraint does the same, with the roles exchanged, to
    the result of the first step. *)
Theorem logoSize_fits_box (width height : Z) :
  (0 < width)%Z -> (0 < height)%Z ->
  logoSize host width height
  = constrainHeight host (constrainWidth host (inject_Z width, inject_Z height))
  /\ (monotoneRounding (rnd host) -> rnd host 1 == 1 -> rnd host 50 == 50 ->
      (logoSize host width height).1 <= 50
      /\ (logoSize host width height).2 <= 50)
  /\ (exactArithmetic (rnd host) ->
      (logoSize host width height).1 * inject_Z height
      == (logoSize host width height).2 * inject_Z width)
  /\ (forall e, 0 <= e < 1 -> relativeError e (rnd host) ->
      (1 - e) * (1 - e) * ((logoSize host width height).1 * inject_Z height)
      <= (1 + e) * (1 + e) * ((logoSize host width height).2 * inject_Z width)
      /\ (1 - e) * (1 - e) * ((logoSize host width height).2 * inject_Z width)
         <= (1 + e) * (1 + e) * ((logoSize host width height).1 * inject_Z height))
  /\ ((width <= 50)%Z -> (height <= 50)%Z ->
      logoSize host width height = (inject_Z width, inject_Z height))
  /\ ((50 < width)%Z \/ (50 < height)%Z ->
      (logoSize host width height).1 = 50 \/ (logoSize host width height).2 = 50)
  /\ (forall e, 0 <= e < 1 -> relativeError e (rnd host) ->
      0 < (logoSize host width height).1 /\ 0 < (logoSize host width height).2)
  /\ (exactArithmetic (rnd host) ->
      ((50 < width)%Z -> (height <= width)%Z ->
       (logoSize host width height).1 == 50
       /\ (logoSize host width height).2 == 50 * inject_Z height / inject_Z width)
      /\ ((50 < height)%Z -> (width <= height)%Z ->
          (logoSize host width height).1 == 50 * inject_Z width / inject_Z height
          /\ (logoSize host width height).2 == 50))
  /\ (exactArithmetic (rnd host) ->
      let step1 := constrainWidth host (inject_Z width, inject_Z height) in
      ((50 < width)%Z
       /\ step1.1 == 50 /\ step1.2 == inject_Z height * 50 / inject_Z width
       \/ (width <= 50)%Z /\ step1 = (inject_Z width, inject_Z height))
      /\ (50 < step1.2
          /\ (logoSize host width height).1 == step1.1 * 50 / step1.2
          /\ (logoSize host width height).2 == 50
          \/ step1.2 <= 50 /\ logoSize host width height = step1)).
Proof.
  intros Hw Hh. rewrite Zlt_Qlt in Hw, Hh.
  change (inject_Z 0) with 0 in Hw, Hh. unfold logoSize.
  split; [reflexivity|].
  split; [|split; [|split; [|split; [|split; [|split; [|split]]]]]].
  - intros Hmono H1 H50.
    pose proof (constrainWidth_bounds (inject_Z width) (inject_Z height) Hw) as Hb.
    destruct (constrainWidth host (inject_Z width, inject_Z height)) as [w1 h1].
    cbn [fst] in Hb. apply constrainHeight_bounds; try assumption. lra.
  - intros Hex.
    pose proof (constrainWidth_bounds (inject_Z width) (inject_Z height) Hw) as Hb.
    pose proof (constrainWidth_exact (inject_Z width) (inject_Z height) Hex Hw) as Ha.
    pose proof (constrainWidth_height_pos _ _ Hex Hw Hh) as Hp.
    destruct (constrainWidth host (inject_Z width, inject_Z height)) as [w1 h1].
    cbn [fst snd] in Hb, Ha, Hp.
    pose proof (constrainHeight_exact w1 h1 Hex Hp) as Hc.
    destruct (constrainHeight host (w1, h1)) as [w2 h2]. cbn [fst snd] in *.
    assert (w2 * inject_Z height * h1 == h2 * inject_Z width * h1) as Hm.
    { transitivity (w2 * h1 * inject_Z height); [ring|].
      rewrite Hc. transitivity (h2 * (w1 * inject_Z height)); [ring|].
      rewrite Ha. ring. }
    apply Qmult_inj_r in Hm; [exact Hm|lra].
  - intros e He Hrel.
    apply (logoSize_tolerance e (inject_Z width) (inject_Z height) He Hrel Hw Hh).
  - intros Hw50 Hh50. rewrite Zle_Qle in Hw50, Hh50.
    change (inject_Z 50) with 50 in Hw50, Hh50.
    unfold constrainWidth, constrainHeight, maxLogoWidth, maxLogoHeight.
    destruct (Qlt_le_dec 50 (inject_Z width)) as [Hlt|_]; [lra|].
    destruct (Qlt_le_dec 50 (inject_Z height)) as [Hlt|_]; [lra|]. reflexivity.
  - intros Hbig. apply logoSize_touches_box.
    rewrite !Zlt_Qlt in Hbig. exact Hbig.
  - intros e He Hrel.
    apply (logoSize_positive e (inject_Z width) (inject_Z height) He Hrel Hw Hh).
  - intros Hex.
    destruct (logoSize_closed_form (inject_Z width) (inject_Z height) Hex Hw Hh)
      as [Hwide Htall].
    split.
    + intros Hlt Hle. rewrite Zlt_Qlt in Hlt. rewrite Zle_Qle in Hle.
      apply Hwide; assumption.
    + intros Hlt Hle. rewrite Zlt_Qlt in Hlt. rewrite Zle_Qle in Hle.
      apply Htall; assumption.
  - intros Hex. cbv zeta.
    pose proof (constrainWidth_height_pos _ _ Hex Hw Hh) as Hp.
    split.
    + destruct (constrainWidth_pinned (inject_Z width) (inject_Z height) Hex Hw)
        as [(Hlt & E1 & E2)|[Hle E]].
      * left. rewrite Zlt_Qlt. auto.
      * right. rewrite Zle_Qle. auto.
    + destruct (constrainWidth host (inject_Z width, inject_Z height)) as [w1 h1].
      cbn [fst snd] in *.
      destruct (constrainHeight_pinned w1 h1 Hex Hp) as [(Hlt & F1 & F2)|[Hle F]];
        [left|right]; auto.
Qed.

(** *** Failures while composing *)

Lemma composeCertificate_steps (data : Obj) (logoDataUrl : Value) :
  composeCertificate host data logoDataUrl
  = match drawFrame host [] with
    | (Rejected e, doc) => (Rejected e, doc)
    | (Resolved _, doc1) =>
        match placeLogo host logoDataUrl doc1 with
        | (Rejected e, doc) => (Rejected e, doc)
        | (Resolved logoHeight, doc2) =>
            match drawBody host data logoHeight doc2 with
            | (Rejected e, doc) => (Rejected e, doc)
            | (Resolved _, doc3) => (Resolved (output host doc3), doc3)
            end
        end
    end.
Proof.
  unfold composeCertificate, try_catch, mbind, M_bind, bind, throw, outputDataUrl.
  destruct (drawFrame host []) as [[[]|e] doc1]; [|reflexivity].
  destruct (placeLogo host logoDataUrl doc1) as [[lh|e] doc2]; [|reflexivity].
  destruct (drawBody host data lh doc2) as [[[]|e] doc3]; reflexivity.
Qed.



(** Whatever goes wrong with the logo, the step itself does not fail. *)
Lemma placeLogo_recovers (logoDataUrl : Value) doc :
  exists logoHeight doc',
    placeLogo host logoDataUrl doc = (Resolved logoHeight, doc').
Proof.
  unfold placeLogo. destruct (truthy logoDataUrl); [|eexists _, _; reflexivity].
  unfold try_catch, mbind, M_bind, bind.
  destruct (loadImage host (toString logoDataUrl)) as [img|e];
    [|eexists _, _; reflexivity].
  cbn [await]. unfold ret at 1.
  destruct (logoSize host img.1 img.2) as [lw lh].
  unfold draw. destruct (refuses host doc _); eexists _, _; reflexivity.
Qed.



End Compose.

(** *** The composer on the sample data *)

Section ComposeExamples.

Import PDFGenerator.
Local Open Scope Q_scope.

Lemma getRoleSpecificText_fallback_witness :
  getRoleSpecificText Examples.invitado = asistenteText Examples.invitado
  /\ getRoleSpecificText Examples.invitado
     = getRoleSpecificText
         (<["participantRole" := Str "Asistente"]> Examples.invitado).
Proof.
  apply (getRoleSpecificText_fallback Examples.invitado).
  - vm_compute. discriminate.
  - vm_compute. discriminate.
Defined.

Lemma plainHost_monotone : monotoneRounding (rnd Examples.plainHost).
Proof. intros x y Hxy. exact Hxy. Qed.

Lemma plainHost_exact : exactArithmetic (rnd Examples.plainHost).
Proof. intros x. cbn. reflexivity. Qed.

Lemma logoSize_fits_box_witness :
  ((logoSize Examples.plainHost 100 400).1 <= 50
   /\ (logoSize Examples.plainHost 100 400).2 <= 50)
  /\ (logoSize Examples.plainHost 100 400).1 * inject_Z 400
     == (logoSize Examples.plainHost 100 400).2 * inject_Z 100
  /\ logoSize Examples.plainHost 40 30 = (inject_Z 40, inject_Z 30)
  /\ ((logoSize Examples.plainHost 100 400).1 == 50 * inject_Z 100 / inject_Z 400
      /\ (logoSize Examples.plainHost 100 400).2 == 50)
  /\ ((logoSize Examples.plainHost 400 100).1 == 50
      /\ (logoSize Examples.plainHost 400 100).2 == 50 * inject_Z 100 / inject_Z 400).
Proof.
  destruct (logoSize_fits_box Examples.plainHost 100 400)
    as (_ & Hbox & Hratio & _ & _ & _ & _ & Htall & _); [lia|lia|].
  destruct (logoSize_fits_box Examples.plainHost 40 30)
    as (_ & _ & _ & _ & Hsmall & _); [lia|lia|].
  destruct (logoSize_fits_box Examples.plainHost 400 100)
    as (_ & _ & _ & _ & _ & _ & _ & Hwide & _); [lia|lia|].
  split; [|split; [|split; [|split]]].
  - apply Hbox; [exact plainHost_monotone|reflexivity|reflexivity].
  - apply Hratio, plainHost_exact.
  - apply Hsmall; lia.
  - apply (Htall plainHost_exact); lia.
  - apply (Hwide plainHost_exact); lia.
Defined.


End ComposeExamples.

(** ** More on the record store *)

Section StoreRoundTrips.

Lemma opens_generateCertificateId today st :
  opens (generateCertificateId today st).2 = opens st.
Proof. reflexivity. Qed.

Lemma certificates_generateCertificateId today st :
  certificates (generateCertificateId today st).2 = certificates st.
Proof. reflexivity. Qed.

(** What a successful [saveCertificate] has done, whatever the data. *)
Lemma saveCertificate_resolved today now (data : Obj) pdf st (cert : Obj) st' :
  saveCertificate today now data pdf st = (Resolved cert, st') ->
  exists key st1,
    cert !! "id" = Some (Str key)
    /\ st' = set_certificates (<[key := cert]> (certificates st1)) st1
    /\ opens st1 = true
    /\ certificates st1 = certificates st
    /\ (st1 = st \/ st1 = (generateCertificateId today st).2).
Proof.
  unfold saveCertificate, initDB. destruct (opens st) eqn:Hopen; [|discriminate].
  destruct (truthy (prop data "id")).
  - set (c := <["createdAt" := _]> _).
    destruct (validKey (prop c "id")) as [key|] eqn:Hkey; [|discriminate].
    intros [= <- <-]. exists key, st. repeat split; auto.
    unfold prop in Hkey. destruct (c !! "id") as [[| |k]|]; try discriminate Hkey.
    cbn in Hkey. congruence.
  - pose proof (opens_generateCertificateId today st) as Ho.
    pose proof (certificates_generateCertificateId today st) as Hc.
    destruct (generateCertificateId today st) as [fresh st1]. cbn [snd] in Ho, Hc.
    set (c := <["createdAt" := _]> _).
    destruct (validKey (prop c "id")) as [key|] eqn:Hkey; [|discriminate].
    intros [= <- <-]. exists key, st1. repeat split; auto; [|congruence].
    unfold prop in Hkey. destruct (c !! "id") as [[| |k]|]; try discriminate Hkey.
    cbn in Hkey. congruence.
Qed.

(** Save, then look up. Whenever [saveCertificate] resolves, the record it
    returns carries a string [id], [getCertificateById] finds exactly that
    record under it, and [getAllCertificates] lists it. *)
Theorem saveCertificate_then_getCertificateById
    today now (data : Obj) pdf st (cert : Obj) st' :
  saveCertificate today now data pdf st = (Resolved cert, st') ->
  exists key,
    cert !! "id" = Some (Str key)
    /\ getCertificateById (Str key) st' = Resolved (Some cert)
    /\ exists all, getAllCertificates st' = Resolved all /\ cert ∈ all.
Proof.
  intros Hsave.
  destruct (saveCertificate_resolved _ _ _ _ _ _ _ Hsave)
    as (key & st1 & Hid & -> & Hopen & _ & _).
  exists key. split; [exact Hid|]. split.
  - unfold getCertificateById, initDB. cbn [opens set_certificates validKey certificates].
    rewrite Hopen, lookup_insert_eq. reflexivity.
  - eexists. split; [apply getAllCertificates_open; exact Hopen|].
    eapply elem_of_getAll; [apply getAllCertificates_open; exact Hopen|].
    exists key. cbn [certificates set_certificates]. apply lookup_insert_eq.
Qed.

(** Delete, then look up. On an open database, after [deleteCertificate]
    the identifier is looked up as [undefined], every other identifier is
    looked up as before, the counter is untouched, and what
    [getAllCertificates] lists are the records stored before under the other
    keys. *)
Theorem deleteCertificate_then_getCertificateById (id : string) st :
  opens st = true ->
  getCertificateById (Str id) (deleteCertificate (Str id) st).2 = Resolved None
  /\ (forall other, other <> id ->
      getCertificateById (Str other) (deleteCertificate (Str id) st).2
      = getCertificateById (Str other) st)
  /\ localStorage (deleteCertificate (Str id) st).2 = localStorage st
  /\ exists all,
      getAllCertificates (deleteCertificate (Str id) st).2 = Resolved all
      /\ forall cert : Obj,
          cert ∈ all <->
          exists key, key <> id /\ certificates st !! key = Some cert.
Proof.
  intros Hopen. unfold deleteCertificate, initDB. rewrite Hopen.
  cbn [validKey snd]. set (st' := set_certificates _ st).
  assert (opens st' = true) as Hopen' by exact Hopen.
  repeat split.
  - unfold getCertificateById, initDB. rewrite Hopen'. cbn [validKey].
    subst st'. cbn [certificates set_certificates]. rewrite lookup_delete_eq.
    reflexivity.
  - intros other Hne. unfold getCertificateById, initDB. rewrite Hopen', Hopen.
    cbn [validKey]. subst st'. cbn [certificates set_certificates].
    rewrite lookup_delete_ne by congruence. reflexivity.
  - eexists. split; [apply getAllCertificates_open; exact Hopen'|].
    intros cert.
    rewrite (elem_of_getAll st' _ cert (getAllCertificates_open st' Hopen')).
    subst st'. cbn [certificates set_certificates]. split.
    + intros [key Hkey]. apply lookup_delete_Some in Hkey as [Hne Hkey].
      exists key. split; [congruence|exact Hkey].
    + intros (key & Hne & Hkey). exists key.
      apply lookup_delete_Some. split; [congruence|exact Hkey].
Qed.

(** A database that cannot be opened. Every operation rejects with the
    error of [initDB] and leaves everything as it was: in particular
    [saveCertificate] draws no identifier, and a blank search fails like any
    other. *)
Theorem closed_database_rejects fmt today now (data : Obj) pdf (v : Value) st :
  opens st = false ->
  saveCertificate today now data pdf st = (Rejected OpenError, st)
  /\ deleteCertificate v st = (Rejected OpenError, st)
  /\ getCertificateById v st = Rejected OpenError
  /\ getAllCertificates st = Rejected OpenError
  /\ searchCertificates fmt v st = Rejected OpenError.
Proof.
  intros Hopen.
  unfold saveCertificate, deleteCertificate, getCertificateById,
    searchCertificates, getAllCertificates, initDB.
  rewrite Hopen. repeat split.
Qed.

(** The number of records listed is the number of keys in use. *)
Lemma length_getAll st all :
  getAllCertificates st = Resolved all -> length all = size (certificates st).
Proof.
  unfold getAllCertificates. destruct (initDB st); [|discriminate].
  intros [= <-]. rewrite length_fmap, merge_sort_Permutation.
  apply length_map_to_list.
Qed.

(** Upsert. Saving data that carries the identifier [key] adds one record
    to the list of [getAllCertificates] when [key] was free and keeps the
    count when it was taken. *)
Theorem saveCertificate_upserts today now (data : Obj) pdf st key :
  opens st = true -> data !! "id" = Some (Str key) ->
  exists all all',
    getAllCertificates st = Resolved all
    /\ getAllCertificates (saveCertificate today now data pdf st).2 = Resolved all'
    /\ length all'
       = match certificates st !! key with
         | Some _ => length all
         | None => S (length all)
         end.
Proof.
  intros Hopen Hid.
  rewrite (saveCertificate_with_id today now data pdf st key Hopen Hid).
  cbv zeta. cbn [snd]. set (cert := <["createdAt" := _]> _).
  set (st1 := if decide (key = "") then _ else st).
  assert (certificates st1 = certificates st /\ opens st1 = true) as [Hsame Hopen1].
  { subst st1. destruct (decide (key = "")); split; auto. }
  set (st' := set_certificates _ st1).
  assert (opens st' = true) as Hopen' by exact Hopen1.
  eexists _, _. split; [apply getAllCertificates_open, Hopen|].
  split; [apply getAllCertificates_open, Hopen'|].
  rewrite (length_getAll st' _ (getAllCertificates_open st' Hopen')).
  rewrite (length_getAll st _ (getAllCertificates_open st Hopen)).
  subst st'. cbn [certificates set_certificates]. rewrite Hsame.
  rewrite map_size_insert. destruct (certificates st !! key); reflexivity.
Qed.

End StoreRoundTrips.

(** ** More on identifiers *)

Section Counter.

Local Open Scope Z_scope.

(** A counter item that does not read as a number. The identifier ends in
    00NaN, the item is rewritten as NaN and so stays unreadable: from then
    on all identifiers drawn with the same date are one and the same. *)
Theorem generateCertificateId_unreadable_counter today st :
  currentCounter st = NaN ->
  (generateCertificateId today st).1 = "CERT-" ++ datePart today ++ "-00NaN"
  /\ currentCounter (generateCertificateId today st).2 = NaN
  /\ forall later,
      datePart later = datePart today ->
      (generateCertificateId later (generateCertificateId today st).2).1
      = (generateCertificateId today st).1.
Proof.
  intros Hc.
  assert (forall d st0, currentCounter st0 = NaN ->
            generateCertificateId d st0
            = ("CERT-" ++ datePart d ++ "-00NaN",
               setItem "certificateCounter" "NaN" st0)) as Hstep.
  { intros d st0 H0. unfold generateCertificateId.
    fold (currentCounter st0). rewrite H0. reflexivity. }
  assert (currentCounter (setItem "certificateCounter" "NaN" st) = NaN) as Hnan.
  { unfold currentCounter, getItem, setItem. cbn [localStorage].
    rewrite lookup_insert_eq. reflexivity. }
  rewrite (Hstep today st Hc). cbn [fst snd].
  split; [reflexivity|]. split; [exact Hnan|].
  intros later Hd. rewrite (Hstep later _ Hnan). cbn [fst]. now rewrite Hd.
Qed.

Lemma generateCertificateId_unreadable_counter_witness :
  (generateCertificateId Examples.day1
     (setItem "certificateCounter" "n/a" Examples.emptyStore)).1
  = "CERT-20240510-00NaN".
Proof.
  apply (proj1 (generateCertificateId_unreadable_counter Examples.day1
                  (setItem "certificateCounter" "n/a" Examples.emptyStore)
                  eq_refl)).
Defined.

Lemma fresh_ids_differ d1 d2 (n : Z) :
  0 <= n ->
  "CERT-" ++ datePart d1 ++ "-" ++ padStart 5 "0" (decimal (Z.to_N (n + 1)))
  <> "CERT-" ++ datePart d2 ++ "-" ++ padStart 5 "0" (decimal (Z.to_N (n + 1 + 1))).
Proof.
  intros Hn Heq. apply (f_equal numericSuffix) in Heq.
  rewrite <- (append_assoc "CERT-" (datePart d1)) in Heq.
  rewrite <- (append_assoc "CERT-" (datePart d2)) in Heq.
  rewrite !numericSuffix_id in Heq.
  injection Heq as Heq. lia.
Qed.

(** Two saves of data without [id], one after the other, from a counter that
    reads as a number [n] with [n + 2] at most 2^53 (the range in which adding
    one to a JavaScript number is exact): they are stored under two different
    fresh identifiers, and both records are in the store afterwards. *)
Theorem saves_without_id_keep_both
    d1 n1 d2 n2 (data1 data2 : Obj) pdf1 pdf2 st (n : Z) :
  opens st = true -> currentCounter st = Int n -> 0 <= n -> n + 2 <= 2 ^ 53 ->
  data1 !! "id" = None -> data2 !! "id" = None ->
  exists (c1 c2 : Obj) k1 k2 st1 st2,
    saveCertificate d1 n1 data1 pdf1 st = (Resolved c1, st1)
    /\ saveCertificate d2 n2 data2 pdf2 st1 = (Resolved c2, st2)
    /\ c1 !! "id" = Some (Str k1) /\ c2 !! "id" = Some (Str k2)
    /\ k1 <> k2
    /\ certificates st2 !! k1 = Some c1
    /\ certificates st2 !! k2 = Some c2.
Proof.
  intros Hopen Hc Hn _ Hid1 Hid2.
  pose proof (saveCertificate_without_id d1 n1 data1 pdf1 st Hopen Hid1) as H1.
  cbv zeta in H1. rewrite (generateCertificateId_step d1 st n Hc Hn) in H1.
  cbn [fst snd] in H1.
  set (k1 := "CERT-" ++ datePart d1 ++ "-" ++ padStart 5 "0" (decimal (Z.to_N (n + 1)))) in *.
  set (sa := setItem "certificateCounter" (decimal (Z.to_N (n + 1))) st) in *.
  set (c1 := <["createdAt" := _]> _) in H1.
  set (st1 := set_certificates (<[k1 := c1]> (certificates sa)) sa) in *.
  assert (opens st1 = true) as Hopen1 by exact Hopen.
  assert (currentCounter st1 = Int (n + 1)) as Hc1.
  { transitivity (currentCounter sa); [reflexivity|].
    subst sa. rewrite currentCounter_setItem. f_equal. lia. }
  pose proof (saveCertificate_without_id d2 n2 data2 pdf2 st1 Hopen1 Hid2) as H2.
  cbv zeta in H2.
  rewrite (generateCertificateId_step d2 st1 (n + 1) Hc1 ltac:(lia)) in H2.
  cbn [fst snd] in H2.
  set (k2 := "CERT-" ++ datePart d2 ++ "-" ++ padStart 5 "0" (decimal (Z.to_N (n + 1 + 1)))) in *.
  set (c2 := <["createdAt" := _]> _) in H2.
  assert (k1 <> k2) as Hne by (apply fresh_ids_differ; exact Hn).
  exists c1, c2, k1, k2. eexists _, _.
  split; [exact H1|]. split; [exact H2|].
  cbn [certificates set_certificates setItem].
  repeat split.
  - unfold c1. rewrite !lookup_insert_ne by discriminate. apply lookup_insert_eq.
  - unfold c2. rewrite !lookup_insert_ne by discriminate. apply lookup_insert_eq.
  - exact Hne.
  - rewrite lookup_insert_ne by congruence. apply lookup_insert_eq.
  - apply lookup_insert_eq.
Qed.

Lemma saves_without_id_keep_both_witness :
  exists (c1 c2 : Obj) k1 k2 st1 st2,
    saveCertificate Examples.day1 Examples.day1 Examples.carlosNoId
      (Str "data:application/pdf;base64,AAAA") Examples.emptyStore
    = (Resolved c1, st1)
    /\ saveCertificate Examples.day1 Examples.day1 Examples.carlosNoId
         (Str "data:application/pdf;base64,AAAA") st1
       = (Resolved c2, st2)
    /\ k1 <> k2
    /\ certificates st2 !! k1 = Some c1
    /\ certificates st2 !! k2 = Some c2.
Proof.
  destruct (saves_without_id_keep_both Examples.day1 Examples.day1
              Examples.day1 Examples.day1 Examples.carlosNoId Examples.carlosNoId
              (Str "data:application/pdf;base64,AAAA")
              (Str "data:application/pdf;base64,AAAA") Examples.emptyStore 0)
    as (c1 & c2 & k1 & k2 & st1 & st2 & H1 & H2 & _ & _ & Hne & Hk1 & Hk2);
    [reflexivity|reflexivity|lia|lia|reflexivity|reflexivity|].
  exists c1, c2, k1, k2, st1, st2. repeat split; assumption.
Defined.

End Counter.

(** ** More on searching *)

Section Search.

Lemma saveCertificate_empty_id_witness :
  exists (cert : Obj) st',
    saveCertificate Examples.day1 Examples.day1
      (<["id" := Str ""]> Examples.carlos)
      (Str "data:application/pdf;base64,AAAA") Examples.emptyStore
    = (Resolved cert, st')
    /\ certificates st' !! "" = Some cert
    /\ localStorage st'
       = localStorage (generateCertificateId Examples.day1 Examples.emptyStore).2.
Proof.
  destruct (saveCertificate_empty_id Examples.day1 Examples.day1
              (<["id" := Str ""]> Examples.carlos)
              (Str "data:application/pdf;base64,AAAA") Examples.emptyStore
              eq_refl (lookup_insert_eq _ _ _))
    as (cert & st' & Hsave & _ & Hkey & Hls).
  exists cert, st'. repeat split; assumption.
Defined.

Lemma saveCertificate_invalid_id_witness :
  saveCertificate Examples.day1 Examples.day1
    (<["id" := Undefined]> Examples.carlos)
    (Str "data:application/pdf;base64,AAAA") Examples.emptyStore
  = (Rejected DataError,
     (generateCertificateId Examples.day1 Examples.emptyStore).2).
Proof.
  apply (saveCertificate_invalid_id Examples.day1 Examples.day1
           (<["id" := Undefined]> Examples.carlos)
           (Str "data:application/pdf;base64,AAAA") Examples.emptyStore
           Undefined eq_refl (lookup_insert_eq _ _ _) eq_refl).
Defined.

Lemma filterCerts_sublist (p : Obj -> Outcome bool) l found :
  filterCerts p l = Resolved found -> found `sublist_of` l.
Proof.
  revert found. induction l as [|c l IH]; intros found.
  - cbn. intros [= <-]. constructor.
  - cbn [filterCerts]. destruct (p c) as [b|e]; [|discriminate].
    destruct (filterCerts p l) as [r|e]; [|discriminate].
    intros [= <-]. specialize (IH r eq_refl).
    destruct b; [apply sublist_skip|apply sublist_cons]; exact IH.
Qed.

(** Whatever the term, what [searchCertificates] resolves to is a
    sub-sequence of what [getAllCertificates] resolves to: stored records
    only, each at most as often, in the same order. *)
Theorem searchCertificates_sublist fmt (searchTerm : Value) st found :
  searchCertificates fmt searchTerm st = Resolved found ->
  exists all,
    getAllCertificates st = Resolved all /\ found `sublist_of` all.
Proof.
  unfold searchCertificates.
  destruct (getAllCertificates st) as [all|e]; [|discriminate].
  intros Hs. exists all. split; [reflexivity|].
  destruct searchTerm as [| |s]; try (injection Hs as <-; reflexivity).
  destruct (negb (truthy (Str s)) || bool_decide (trim s = "")).
  - injection Hs as <-. reflexivity.
  - eapply filterCerts_sublist, Hs.
Qed.

Lemma searchCertificates_sublist_witness :
  exists all,
    getAllCertificates Examples.carlosSaved = Resolved all
    /\ [Examples.carlosRecord] `sublist_of` all.
Proof.
  apply (searchCertificates_sublist Examples.plainLocale (Str "rust")
           Examples.carlosSaved [Examples.carlosRecord]).
  vm_compute. reflexivity.
Defined.

(** *** Case and surrounding white space of the term *)

Lemma isWhiteSpace_lowerChar c : isWhiteSpace (lowerChar c) = isWhiteSpace c.
Proof. destruct c as [[] [] [] [] [] [] [] []]; reflexivity. Qed.

Lemma trimStart_toLowerCase s :
  trimStart (toLowerCase s) = toLowerCase (trimStart s).
Proof.
  induction s as [|c s IH]; [reflexivity|].
  cbn [toLowerCase trimStart]. rewrite isWhiteSpace_lowerChar.
  destruct (isWhiteSpace c); [exact IH|reflexivity].
Qed.

Lemma trimEnd_toLowerCase s :
  trimEnd (toLowerCase s) = toLowerCase (trimEnd s).
Proof.
  induction s as [|c s IH]; [reflexivity|].
  cbn [toLowerCase trimEnd]. rewrite IH, isWhiteSpace_lowerChar.
  destruct (trimEnd s) as [|c' r]; cbn [toLowerCase]; [|reflexivity].
  destruct (isWhiteSpace c); reflexivity.
Qed.

Lemma trim_toLowerCase s : trim (toLowerCase s) = toLowerCase (trim s).
Proof. unfold trim. now rewrite trimStart_toLowerCase, trimEnd_toLowerCase. Qed.

Lemma toLowerCase_empty s : toLowerCase s = "" <-> s = "".
Proof. destruct s; cbn; split; congruence. Qed.

Lemma blankTerm_termOf s :
  blankTerm (Str s) = bool_decide (termOf (Str s) = "").
Proof.
  cbn [blankTerm termOf]. apply bool_decide_ext.
  rewrite trim_toLowerCase, toLowerCase_empty. reflexivity.
Qed.

(** The search sees the term only lower-cased and trimmed: two terms that
    agree after that (such as "RUIZ" and "  ruiz ") give the same outcome on
    every store. *)
Theorem searchCertificates_term_normalised fmt (s1 s2 : string) st :
  trim (toLowerCase s1) = trim (toLowerCase s2) ->
  searchCertificates fmt (Str s1) st = searchCertificates fmt (Str s2) st.
Proof.
  intros Heq.
  assert (blankTerm (Str s1) = blankTerm (Str s2)) as Hb
    by (rewrite !blankTerm_termOf; cbn [termOf]; now rewrite Heq).
  destruct (blankTerm (Str s2)) eqn:Hb2.
  - rewrite !searchCertificates_blank by assumption. reflexivity.
  - destruct (getAllCertificates st) as [all|e] eqn:Hall.
    + rewrite (searchCertificates_term fmt (Str s1) st all Hb Hall).
      rewrite (searchCertificates_term fmt (Str s2) st all Hb2 Hall).
      cbn [termOf]. now rewrite Heq.
    + unfold searchCertificates. rewrite Hall. reflexivity.
Qed.

Lemma searchCertificates_term_normalised_witness :
  searchCertificates Examples.plainLocale (Str "RUIZ") Examples.carlosSaved
  = searchCertificates Examples.plainLocale (Str "  ruiz ") Examples.carlosSaved.
Proof.
  apply (searchCertificates_term_normalised Examples.plainLocale
           "RUIZ" "  ruiz " Examples.carlosSaved).
  reflexivity.
Defined.

(** *** Records the filter cannot read *)

Lemma matchesTerm_error fmt term (cert : Obj) e :
  matchesTerm fmt term cert = Rejected e -> e = TypeError.
Proof.
  unfold matchesTerm, lowered.
  repeat match goal with
         | |- context [match prop cert ?k with _ => _ end] =>
             destruct (prop cert k)
         | |- context [if ?b then _ else _] => destruct b
         end; congruence.
Qed.

Lemma filterCerts_rejects (p : Obj -> Outcome bool) l (cert : Obj) :
  (forall c e, p c = Rejected e -> e = TypeError) ->
  cert ∈ l -> p cert = Rejected TypeError ->
  filterCerts p l = Rejected TypeError.
Proof.
  intros Herr Hin Hp. induction l as [|c l IH]; [inversion Hin|].
  cbn [filterCerts]. destruct (p c) as [b|e] eqn:Hc.
  - apply elem_of_cons in Hin as [->|Hin]; [congruence|].
    rewrite (IH Hin). reflexivity.
  - now rewrite (Herr c e Hc).
Qed.

(** One stored record whose [participantName] is not a string, and whose
    [id] does not contain the term, makes every search for that term reject
    with a TypeError, while a blank search still lists everything. *)
Theorem searchCertificates_unreadable_record fmt (s : string) st key (cert : Obj) :
  opens st = true ->
  certificates st !! key = Some cert ->
  isStr (prop cert "participantName") = false ->
  fieldIncludes cert "id" (termOf (Str s)) = false ->
  blankTerm (Str s) = false ->
  searchCertificates fmt (Str s) st = Rejected TypeError
  /\ searchCertificates fmt (Str "") st = getAllCertificates st.
Proof.
  intros Hopen Hkey Hname Hid Hb. split; [|apply searchCertificates_blank; reflexivity].
  pose proof (getAllCertificates_open st Hopen) as Hall.
  rewrite (searchCertificates_term fmt (Str s) st _ Hb Hall).
  apply (filterCerts_rejects _ _ cert).
  - apply matchesTerm_error.
  - eapply elem_of_getAll; [exact Hall|]. eauto.
  - unfold fieldIncludes in Hid. unfold matchesTerm, lowered.
    destruct (prop cert "id") as [| |i]; try reflexivity.
    rewrite Hid.
    destruct (prop cert "participantName"); [reflexivity|reflexivity|discriminate Hname].
Qed.

Lemma searchCertificates_unreadable_record_witness :
  searchCertificates Examples.plainLocale (Str "rust")
    (saveCertificate Examples.day1 Examples.day1 Examples.anonymous
       (Str "data:application/pdf;base64,AAAA") Examples.emptyStore).2
  = Rejected TypeError.
Proof.
  destruct (searchCertificates_unreadable_record Examples.plainLocale "rust"
              (saveCertificate Examples.day1 Examples.day1 Examples.anonymous
                 (Str "data:application/pdf;base64,AAAA") Examples.emptyStore).2
              "CERT-20240510-00001"
              (<["createdAt" := Str "2024-05-10T15:04:05.000Z"]>
                 (<["pdfDataUrl" := Str "data:application/pdf;base64,AAAA"]>
                    Examples.anonymous)))
    as [Hrejects _].
  - reflexivity.
  - vm_compute. reflexivity.
  - vm_compute. reflexivity.
  - vm_compute. reflexivity.
  - vm_compute. reflexivity.
  - exact Hrejects.
Defined.

End Search.

(** ** More on the composer *)

Section Page.

Import PDFGenerator Layout.
Local Open Scope Q_scope.

(** The three wordings cannot be mistaken for one another, whatever event
    and duration they quote: the paragraphs for 'Ponente', for 'Organizador'
    and for any other role are pairwise different. *)
Theorem getRoleSpecificText_tells_roles_apart (ponente organizador other : Obj) :
  prop ponente "participantRole" = Str "Ponente" ->
  prop organizador "participantRole" = Str "Organizador" ->
  prop other "participantRole" <> Str "Ponente" ->
  prop other "participantRole" <> Str "Organizador" ->
  getRoleSpecificText ponente <> getRoleSpecificText organizador
  /\ getRoleSpecificText ponente <> getRoleSpecificText other
  /\ getRoleSpecificText organizador <> getRoleSpecificText other.
Proof.
  intros Hp Ho Hn1 Hn2.
  assert (String.get 20 (getRoleSpecificText ponente) = Some "P"%char) as Gp.
  { unfold getRoleSpecificText. cbv zeta. rewrite Hp.
    rewrite decide_True by reflexivity. reflexivity. }
  assert (String.get 20 (getRoleSpecificText organizador) = Some "O"%char) as Go.
  { unfold getRoleSpecificText. cbv zeta. rewrite Ho.
    rewrite decide_False by discriminate. rewrite decide_True by reflexivity.
    reflexivity. }
  assert (String.get 20 (getRoleSpecificText other) = Some "A"%char) as Ga.
  { unfold getRoleSpecificText. cbv zeta.
    rewrite decide_False by exact Hn1. rewrite decide_False by exact Hn2.
    reflexivity. }
  repeat split; intros Heq; apply (f_equal (String.get 20)) in Heq;
    congruence.
Qed.

Lemma getRoleSpecificText_tells_roles_apart_witness :
  getRoleSpecificText Examples.carlos
  <> getRoleSpecificText (<["participantRole" := Str "Organizador"]> Examples.carlos).
Proof.
  apply (getRoleSpecificText_tells_roles_apart Examples.carlos
           (<["participantRole" := Str "Organizador"]> Examples.carlos)
           Examples.invitado).
  - reflexivity.
  - unfold prop. rewrite lookup_insert_eq. reflexivity.
  - vm_compute. discriminate.
  - vm_compute. discriminate.
Defined.

Variable host : Host.

(** The logo step draws at most the image, and no text. *)
Lemma placeLogo_shape (logoDataUrl : Value) doc :
  exists logoHeight extra,
    placeLogo host logoDataUrl doc = (Resolved logoHeight, (doc ++ extra)%list)
    /\ textBaselines extra = [] /\ textCentres extra = [] /\ rules extra = [].
Proof.
  unfold placeLogo. destruct (truthy logoDataUrl);
    [|exists 0, []; rewrite app_nil_r; repeat split].
  unfold try_catch, mbind, M_bind, bind.
  destruct (loadImage host (toString logoDataUrl)) as [img|e];
    [|exists 0, []; rewrite app_nil_r; repeat split].
  cbn [await]. unfold ret at 1.
  destruct (logoSize host img.1 img.2) as [lw lh].
  unfold draw. destruct (refuses host doc _).
  - exists 0, []. rewrite app_nil_r. repeat split.
  - eexists _, [_]. repeat split.
Qed.

(** How far the logo pushes the rest down. With a rounding that is monotone
    and leaves 1, 50 and 60 alone, and images of positive size, the cursor
    after the logo step is at most 60, and the step has either drawn nothing
    or one image, at ordinate 40, no wider and no higher than 50. *)
Theorem placeLogo_advance (logoDataUrl : Value) doc logoHeight doc' :
  monotoneRounding (rnd host) ->
  rnd host 1 == 1 -> rnd host 50 == 50 -> rnd host 60 == 60 ->
  (forall url w h,
      imageSize host url = Resolved (w, h) -> (0 < w)%Z /\ (0 < h)%Z) ->
  placeLogo host logoDataUrl doc = (Resolved logoHeight, doc') ->
  logoHeight <= 60
  /\ (doc' = doc
      \/ exists x w h,
          doc' = (doc ++ [AddImage (toString logoDataUrl) "PNG" x 40 w h])%list
          /\ w <= 50 /\ h <= 50).
Proof.
  intros Hmono H1 H50 H60 Hsize. unfold placeLogo.
  destruct (truthy logoDataUrl);
    [|intros [= <- <-]; split; [lra|left; reflexivity]].
  unfold try_catch, mbind, M_bind, bind, loadImage.
  destruct (imageSize host (toString logoDataUrl)) as [[w h]|e] eqn:Himg;
    [|intros [= <- <-]; split; [lra|left; reflexivity]].
  cbn [await]. unfold ret at 1. cbn [fst snd].
  destruct (Hsize _ _ _ Himg) as [Hw Hh]. rewrite Zlt_Qlt in Hw, Hh.
  change (inject_Z 0) with 0 in Hw, Hh.
  assert ((logoSize host w h).1 <= 50 /\ (logoSize host w h).2 <= 50) as [Bw Bh].
  { unfold logoSize.
    pose proof (constrainWidth_bounds host (inject_Z w) (inject_Z h) Hw) as Hb.
    destruct (constrainWidth host (inject_Z w, inject_Z h)) as [w1 h1].
    cbn [fst] in Hb. apply constrainHeight_bounds; try assumption. lra. }
  destruct (logoSize host w h) as [lw lh]. cbn [fst snd] in Bw, Bh.
  unfold draw.
  match goal with |- context [refuses host doc ?c] => destruct (refuses host doc c) end.
  - intros [= <- <-]. split; [lra|left; reflexivity].
  - unfold mret, M_ret, ret. intros [= <- <-]. split.
    + unfold fadd. apply Qle_trans with (rnd host 60); [|rewrite H60; apply Qle_refl].
      apply Hmono. lra.
    + right. eexists _, _, _. split; [reflexivity|]. split; assumption.
Qed.

(** The vertical flow. In exact arithmetic and with a jsPDF that refuses
    nothing, the call resolves and every block sits at a fixed distance
    below the cursor [logoHeight] left by the logo step: the title at 30,
    the lead-in, the name and the role paragraph at 50, 60 and 70 plus
    [logoHeight], then, five units further down per line of the paragraph,
    the completion sentence at 75, the signature rule at 105 (60 wide,
    centred), its caption at 110, the identifier at 130 and the validation
    note at 135. All texts are centred on the middle of the page. *)
Theorem composeCertificate_flow (data : Obj) (logoDataUrl : Value) :
  exactArithmetic (rnd host) ->
  (forall doc c, refuses host doc c = None) ->
  exists pdf doc frame logoHeight afterLogo,
    composeCertificate host data logoDataUrl = (Resolved pdf, doc)
    /\ drawFrame host [] = (Resolved tt, frame)
    /\ placeLogo host logoDataUrl frame = (Resolved logoHeight, afterLogo)
    /\ Forall2 Qeq (textBaselines doc)
         [ 30; 50 + logoHeight; 60 + logoHeight; 70 + logoHeight;
           75 + logoHeight + 5 * roleLines host data;
           110 + logoHeight + 5 * roleLines host data;
           130 + logoHeight + 5 * roleLines host data;
           135 + logoHeight + 5 * roleLines host data ]
    /\ Forall (fun x => x == pageWidth host / 2) (textCentres doc)
    /\ exists x1 y1 x2 y2,
         rules doc = [(x1, y1, x2, y2)]
         /\ x1 == pageWidth host / 2 - 30 /\ x2 == pageWidth host / 2 + 30
         /\ y1 == 105 + logoHeight + 5 * roleLines host data /\ y2 == y1.
Proof.
  intros Hex Hnone. unfold exactArithmetic in Hex.
  assert (forall c doc, draw host c doc = (Resolved tt, (doc ++ [c])%list)) as Hdraw
    by (intros c doc; unfold draw; rewrite Hnone; reflexivity).
  rewrite composeCertificate_steps.
  assert (exists frame, drawFrame host [] = (Resolved tt, frame)
                        /\ textBaselines frame = [30]
                        /\ textCentres frame = [fdiv host (pageWidth host) 2]
                        /\ rules frame = []) as (frame & Hframe & F1 & F2 & F3).
  { unfold drawFrame, mbind, M_bind, bind. rewrite !Hdraw.
    eexists. split; [reflexivity|]. repeat split. }
  rewrite Hframe.
  destruct (placeLogo_shape logoDataUrl frame)
    as (logoHeight & extra & Hlogo & E1 & E2 & E3).
  rewrite Hlogo.
  unfold drawBody, mbind, M_bind, bind. rewrite !Hdraw.
  eexists _, _, frame, logoHeight, _.
  split; [reflexivity|]. split; [reflexivity|]. split; [exact Hlogo|].
  unfold textBaselines, textCentres, rules in *.
  rewrite !omap_app, F1, F2, F3, E1, E2, E3. cbn [omap list_omap textBaseline
    textCentre ruleEnds app]. unfold roleLines, fadd, fsub, fmul, fdiv.
  split; [|split].
  - repeat constructor; rewrite ?Hex; try reflexivity; try ring.
  - repeat constructor; rewrite ?Hex; reflexivity.
  - eexists _, _, _, _. split; [reflexivity|].
    repeat split; rewrite ?Hex; try reflexivity; try ring.
Qed.

End Page.

(** ** The page script *)

Section Script.

Import Main.

Lemma placeLogo_advance_witness :
  exists logoHeight doc',
    PDFGenerator.placeLogo Session.photoHost Examples.brokenLogo []
    = (Resolved logoHeight, doc')
    /\ (logoHeight <= 60)%Q.
Proof.
  destruct (PDFGenerator.placeLogo Session.photoHost Examples.brokenLogo [])
    as [[logoHeight|e] doc'] eqn:Hlogo.
  - exists logoHeight, doc'. split; [reflexivity|].
    apply (placeLogo_advance Session.photoHost Examples.brokenLogo []
             logoHeight doc').
    + intros x y Hxy. exact Hxy.
    + reflexivity.
    + reflexivity.
    + reflexivity.
    + intros url w h [= <- <-]. split; reflexivity.
    + exact Hlogo.
  - vm_compute in Hlogo. discriminate Hlogo.
Defined.

Lemma composeCertificate_flow_witness :
  exists pdf doc,
    PDFGenerator.composeCertificate Session.photoHost Examples.carlos
      Examples.brokenLogo
    = (Resolved pdf, doc)
    /\ length (Layout.textBaselines doc) = 8%nat.
Proof.
  destruct (composeCertificate_flow Session.photoHost Examples.carlos
              Examples.brokenLogo)
    as (pdf & doc & frame & logoHeight & afterLogo & Hc & _ & _ & Hb & _).
  - intros x. cbn. reflexivity.
  - reflexivity.
  - exists pdf, doc. split; [exact Hc|].
    apply Forall2_length in Hb. exact Hb.
Defined.

(** *** validateForm *)

Lemma set_classes_id page : set_classes (classes page) page = page.
Proof. destruct page; reflexivity. Qed.

Lemma validate_fold ids : forall b page,
  (fold_left validateField ids (b, page)).2
  = set_classes (classes (fold_left validateField ids (b, page)).2) page
  /\ (fold_left validateField ids (b, page)).1
     = b && forallb (fun id => negb (bool_decide (trim (valueOf page id) = ""))) ids
  /\ forall id cls,
      (id, cls) ∈ classes (fold_left validateField ids (b, page)).2 <->
      (cls = "is-invalid" /\ id ∈ ids /\ trim (valueOf page id) = "")
      \/ (~ (cls = "is-invalid" /\ id ∈ ids) /\ (id, cls) ∈ classes page).
Proof.
  induction ids as [|a ids IH]; intros b page.
  - cbn [fold_left fst snd forallb]. rewrite set_classes_id, andb_true_r.
    repeat split; [|intros [(_ & Hin & _)|[_ H]]; [inversion Hin|exact H]].
    intros H. right. split; [|exact H]. intros [_ Hin]. inversion Hin.
  - cbn [fold_left forallb].
    assert (validateField (b, page) a
            = if bool_decide (trim (valueOf page a) = "")
              then (false, addClass a "is-invalid" page)
              else (b, removeClass a "is-invalid" page)) as -> by reflexivity.
    destruct (bool_decide (trim (valueOf page a) = "")) eqn:Hblank.
    + apply bool_decide_eq_true in Hblank.
      destruct (IH false (addClass a "is-invalid" page)) as (H2 & H1 & Hc).
      split; [|split].
      * rewrite H2 at 1. reflexivity.
      * rewrite H1. cbn. now rewrite andb_false_r.
      * intros id cls. rewrite Hc. cbn [addClass classes set_classes].
        change (valueOf (addClass a "is-invalid" page) id) with (valueOf page id).
        rewrite elem_of_union, elem_of_singleton, elem_of_cons.
        destruct (decide (id ∈ ids)); destruct (decide (cls = "is-invalid"));
          destruct (decide (id = a)); subst; intuition congruence.
    + apply bool_decide_eq_false in Hblank.
      destruct (IH b (removeClass a "is-invalid" page)) as (H2 & H1 & Hc).
      split; [|split].
      * rewrite H2 at 1. reflexivity.
      * rewrite H1. reflexivity.
      * intros id cls. rewrite Hc. cbn [removeClass classes set_classes].
        change (valueOf (removeClass a "is-invalid" page) id) with (valueOf page id).
        rewrite elem_of_difference, elem_of_singleton, elem_of_cons.
        destruct (decide (id ∈ ids)); destruct (decide (cls = "is-invalid"));
          destruct (decide (id = a)); subst; intuition congruence.
Qed.

(** [validateForm] answers [true] exactly when each of the six required
    fields holds something other than white space. Afterwards a required
    field carries the class 'is-invalid' exactly when it is blank, whatever
    it carried before; no other class, and nothing else on the page, has
    changed. *)
Theorem validateForm_marks_blank_fields (page : Page) :
  ((validateForm page).1 = true <->
   forall id, id ∈ requiredFields -> trim (valueOf page id) <> "")
  /\ (forall id, id ∈ requiredFields ->
      ((id, "is-invalid") ∈ classes (validateForm page).2 <->
       trim (valueOf page id) = ""))
  /\ (forall id cls, ~ (cls = "is-invalid" /\ id ∈ requiredFields) ->
      ((id, cls) ∈ classes (validateForm page).2 <-> (id, cls) ∈ classes page))
  /\ (validateForm page).2 = set_classes (classes (validateForm page).2) page.
Proof.
  destruct (validate_fold requiredFields true page) as (H2 & H1 & Hc).
  fold (validateForm page) in H2, H1, Hc.
  split; [|split; [|split]].
  - rewrite H1. cbn [andb]. rewrite forallb_forall. split.
    + intros H id Hin. apply list_elem_of_In in Hin. specialize (H id Hin).
      apply negb_true_iff, bool_decide_eq_false in H. exact H.
    + intros H id Hin. apply negb_true_iff, bool_decide_eq_false.
      apply H, list_elem_of_In, Hin.
  - intros id Hin. rewrite Hc. tauto.
  - intros id cls Hn. rewrite Hc. tauto.
  - exact H2.
Qed.

(** *** collectFormData and updatePreview *)

Lemma replace_ID (id : string) : replace "ID: " "" ("ID: " ++ id) = id.
Proof. destruct id; reflexivity. Qed.

(** When the preview shows "ID: " followed by an identifier, as
    [updatePreview] writes it, [collectFormData] reads that identifier
    back, whatever it is. Every property it collects is a string, so the
    data always has a valid key and can be searched. *)
Theorem collectFormData_reads_preview_id (page : Page) (id : string) :
  textOf page "preview-certificate-id" = "ID: " ++ id ->
  collectFormData page !! "id" = Some (Str id)
  /\ validKey (prop (collectFormData page) "id") = Some id
  /\ searchable (collectFormData page) = true
  /\ prop (collectFormData page) "participantName"
     = Str (valueOf page "participant-name")
  /\ prop (collectFormData page) "eventName" = Str (valueOf page "event-name").
Proof.
  intros Htext.
  assert (collectFormData page !! "id" = Some (Str id)) as Hid.
  { unfold collectFormData. cbv zeta. rewrite Htext, replace_ID.
    apply lookup_insert_eq. }
  assert (prop (collectFormData page) "participantName"
          = Str (valueOf page "participant-name")) as Hp.
  { unfold prop, collectFormData. cbv zeta.
    rewrite !lookup_insert_ne by discriminate. rewrite lookup_insert_eq.
    reflexivity. }
  assert (prop (collectFormData page) "eventName"
          = Str (valueOf page "event-name")) as He.
  { unfold prop, collectFormData. cbv zeta.
    rewrite !lookup_insert_ne by discriminate. rewrite lookup_insert_eq.
    reflexivity. }
  assert (prop (collectFormData page) "id" = Str id) as Hpid
    by (unfold prop; rewrite Hid; reflexivity).
  split; [exact Hid|]. split; [now rewrite Hpid|].
  split; [|split; assumption].
  unfold searchable. rewrite Hpid, Hp, He. reflexivity.
Qed.

Lemma collectFormData_reads_preview_id_witness :
  collectFormData Session.readyPage !! "id" = Some (Str "CERT-20240510-00001").
Proof.
  apply (collectFormData_reads_preview_id Session.readyPage "CERT-20240510-00001").
  vm_compute. reflexivity.
Defined.

Lemma updatePreview_id f today (page : Page) :
  textOf (updatePreview f today page) "preview-certificate-id"
  = (if bool_decide (textOf page "preview-certificate-id" = "ID: 000000")
     then "ID: " ++ (generateCertificateId today (storage page)).1
     else textOf page "preview-certificate-id")
  /\ storage (updatePreview f today page)
     = (if bool_decide (textOf page "preview-certificate-id" = "ID: 000000")
        then (generateCertificateId today (storage page)).2
        else storage page).
Proof.
  unfold updatePreview. cbv zeta.
  set (p6 := setText "preview-duration" _ _).
  assert (textOf p6 "preview-certificate-id" = textOf page "preview-certificate-id")
    as Ht.
  { unfold p6, setText, textOf. cbn [texts set_texts].
    rewrite !lookup_insert_ne by discriminate. reflexivity. }
  assert (storage p6 = storage page) as Hs by reflexivity.
  rewrite Ht, Hs.
  destruct (bool_decide (textOf page "preview-certificate-id" = "ID: 000000")).
  - destruct (generateCertificateId today (storage page)) as [id st]. cbn [fst snd].
    destruct (truthy _); split; try reflexivity;
      unfold textOf, setText; cbn [texts set_texts set_logoSrc set_storage];
      rewrite lookup_insert_eq; reflexivity.
  - destruct (truthy _); split; try reflexivity; exact Ht.
Qed.

Lemma fresh_text_is_not_placeholder today st :
  "ID: " ++ (generateCertificateId today st).1 <> "ID: 000000".
Proof. cbn. discriminate. Qed.

(** [updatePreview] draws an identifier only while the preview still shows
    the placeholder "ID: 000000", and what it writes is never the
    placeholder: after one call, further calls leave the identifier shown
    and the stored counter as they are. *)
Theorem updatePreview_draws_one_identifier f1 d1 f2 d2 (page : Page) :
  (textOf page "preview-certificate-id" = "ID: 000000" ->
   textOf (updatePreview f1 d1 page) "preview-certificate-id"
   = "ID: " ++ (generateCertificateId d1 (storage page)).1
   /\ storage (updatePreview f1 d1 page)
      = (generateCertificateId d1 (storage page)).2)
  /\ (textOf page "preview-certificate-id" <> "ID: 000000" ->
      textOf (updatePreview f1 d1 page) "preview-certificate-id"
      = textOf page "preview-certificate-id"
      /\ storage (updatePreview f1 d1 page) = storage page)
  /\ textOf (updatePreview f2 d2 (updatePreview f1 d1 page)) "preview-certificate-id"
     = textOf (updatePreview f1 d1 page) "preview-certificate-id"
  /\ storage (updatePreview f2 d2 (updatePreview f1 d1 page))
     = storage (updatePreview f1 d1 page).
Proof.
  destruct (updatePreview_id f1 d1 page) as [Ht Hs].
  assert (textOf (updatePreview f1 d1 page) "preview-certificate-id" <> "ID: 000000")
    as Hne.
  { rewrite Ht. case_bool_decide as Hp; [apply fresh_text_is_not_placeholder|exact Hp]. }
  destruct (updatePreview_id f2 d2 (updatePreview f1 d1 page)) as [Ht2 Hs2].
  rewrite bool_decide_eq_false_2 in Ht2, Hs2 by exact Hne.
  split; [|split; [|split]]; try assumption.
  - intros Hp. rewrite bool_decide_eq_true_2 in Ht, Hs by exact Hp. now split.
  - intros Hp. rewrite bool_decide_eq_false_2 in Ht, Hs by exact Hp. now split.
Qed.

Lemma updatePreview_draws_one_identifier_witness :
  textOf (updatePreview (fun date => date) Examples.day1 Session.servedPage)
    "preview-certificate-id"
  = "ID: CERT-20240510-00001".
Proof.
  apply (proj1 (updatePreview_draws_one_identifier (fun date => date)
                  Examples.day1 (fun date => date) Examples.day1
                  Session.servedPage)).
  reflexivity.
Defined.

(** *** generatePDF *)

Lemma each_required (P : string -> Prop) :
  P "event-name" -> P "event-date" -> P "event-location" ->
  P "participant-name" -> P "participant-role" -> P "event-duration" ->
  forall id, id ∈ requiredFields -> P id.
Proof.
  intros H1 H2 H3 H4 H5 H6 id Hin. unfold requiredFields in Hin.
  repeat (apply elem_of_cons in Hin as [->|Hin]; [assumption|]).
  inversion Hin.
Qed.

Lemma validateForm_valid (page : Page) :
  (forall id, id ∈ requiredFields -> trim (valueOf page id) <> "") ->
  validateForm page = (true, set_classes (classes (validateForm page).2) page).
Proof.
  intros Hall. destruct (validate_fold requiredFields true page) as (H2 & H1 & _).
  fold (validateForm page) in H2, H1.
  assert ((validateForm page).1 = true) as Hv.
  { rewrite H1. apply forallb_forall. intros id Hin.
    apply negb_true_iff, bool_decide_eq_false. apply Hall, list_elem_of_In, Hin. }
  clear H1. destruct (validateForm page) as [b p']. cbn [fst snd] in *.
  subst b. f_equal. exact H2.
Qed.

Lemma validateForm_invalid (page : Page) id :
  id ∈ requiredFields -> trim (valueOf page id) = "" ->
  validateForm page = (false, set_classes (classes (validateForm page).2) page)
  /\ (id, "is-invalid") ∈ classes (validateForm page).2.
Proof.
  intros Hin Hblank.
  destruct (validate_fold requiredFields true page) as (H2 & H1 & Hc).
  fold (validateForm page) in H2, H1, Hc.
  assert ((validateForm page).1 = false) as Hv.
  { rewrite H1. cbn [andb]. apply not_true_is_false. intros Hf.
    rewrite forallb_forall in Hf. apply list_elem_of_In in Hin.
    specialize (Hf id Hin). apply negb_true_iff, bool_decide_eq_false in Hf.
    contradiction. }
  split; [|apply Hc; left; auto].
  clear H1. destruct (validateForm page) as [b p']. cbn [fst snd] in *.
  subst b. f_equal. exact H2.
Qed.

(** A blank required field stops [generatePDF] before anything happens:
    the field is marked, one warning is shown, and nothing is composed,
    displayed or stored. *)
Theorem generatePDF_blank_field host today now (page : Page) id :
  id ∈ requiredFields -> trim (valueOf page id) = "" ->
  storage (generatePDF host today now page) = storage page
  /\ iframeSrc (generatePDF host today now page) = iframeSrc page
  /\ currentCertificateData (generatePDF host today now page)
     = currentCertificateData page
  /\ currentPdfDataUrl (generatePDF host today now page) = currentPdfDataUrl page
  /\ loading (generatePDF host today now page) = loading page
  /\ toasts (generatePDF host today now page)
     = (toasts page
        ++ [("Por favor, complete todos los campos obligatorios.", "danger")])%list
  /\ (id, "is-invalid") ∈ classes (generatePDF host today now page).
Proof.
  intros Hin Hblank.
  destruct (validateForm_invalid page id Hin Hblank) as [Hv Hc].
  unfold generatePDF. rewrite Hv. cbn. repeat split. exact Hc.
Qed.

Lemma generatePDF_blank_field_witness :
  storage (generatePDF Examples.plainHost Examples.day1 Examples.day1
             (fillForm Session.blankName Session.readyPage))
  = storage (fillForm Session.blankName Session.readyPage).
Proof.
  destruct (generatePDF_blank_field Examples.plainHost Examples.day1 Examples.day1
              (fillForm Session.blankName Session.readyPage) "participant-name")
    as (Hstorage & _).
  - unfold requiredFields. set_solver.
  - reflexivity.
  - exact Hstorage.
Defined.

(** How a run with a valid form goes once the document is composed. *)
Lemma generatePDF_composed host today now (page : Page) pdf :
  (forall id, id ∈ requiredFields -> trim (valueOf page id) <> "") ->
  PDFGenerator.generateCertificatePDF host (collectFormData page) (logoDataUrl page)
  = Resolved pdf ->
  let shown :=
    removeClass "pdf-container" "d-none"
      (addClass "preview-container" "d-none"
         (set_iframeSrc pdf
            (set_currentPdfDataUrl (Str pdf)
               (set_currentCertificateData (Some (collectFormData page))
                  (set_loading true
                     (set_classes (classes (validateForm page).2) page)))))) in
  let saved :=
    saveCertificate today now (collectFormData page) (Str pdf) (storage page) in
  generatePDF host today now page
  = match saved.1 with
    | Rejected _ => generationFailed (set_storage saved.2 shown)
    | Resolved _ =>
        showToast successToast.1 successToast.2
          (set_loading false (set_storage saved.2 shown))
    end.
Proof.
  intros Hall Hpdf shown saved. unfold generatePDF.
  rewrite (validateForm_valid page Hall). cbn [negb].
  change (collectFormData (set_loading true (set_classes _ page)))
    with (collectFormData page).
  change (logoDataUrl (set_currentCertificateData _ (set_loading true (set_classes _ page))))
    with (logoDataUrl page).
  rewrite Hpdf. cbv zeta.
  change (storage (removeClass _ _ (addClass _ _ (set_iframeSrc pdf
            (set_currentPdfDataUrl (Str pdf) (set_currentCertificateData _
               (set_loading true (set_classes _ page))))))))
    with (storage page).
  fold saved. destruct saved as [[cert|e] st]; reflexivity.
Qed.

(** The page after a run that composed and saved. *)
Lemma generatePDF_saved host today now (page : Page) key pdf :
  (forall id, id ∈ requiredFields -> trim (valueOf page id) <> "") ->
  textOf page "preview-certificate-id" = "ID: " ++ key -> key <> "" ->
  PDFGenerator.generateCertificatePDF host (collectFormData page) (logoDataUrl page)
  = Resolved pdf ->
  opens (storage page) = true ->
  let cert : Obj :=
    <["createdAt" := Str (toISOString now)]>
      (<["pdfDataUrl" := Str pdf]> (collectFormData page)) in
  generatePDF host today now page
  = showToast successToast.1 successToast.2
      (set_loading false
         (set_storage
            (set_certificates (<[key := cert]> (certificates (storage page)))
               (storage page))
            (removeClass "pdf-container" "d-none"
               (addClass "preview-container" "d-none"
                  (set_iframeSrc pdf
                     (set_currentPdfDataUrl (Str pdf)
                        (set_currentCertificateData (Some (collectFormData page))
                           (set_loading true
                              (set_classes (classes (validateForm page).2)
                                 page))))))))).
Proof.
  intros Hall Htext Hkey Hpdf Hopen cert.
  rewrite (generatePDF_composed host today now page pdf Hall Hpdf). cbv zeta.
  assert (collectFormData page !! "id" = Some (Str key)) as Hid.
  { unfold collectFormData. cbv zeta. rewrite Htext, replace_ID.
    apply lookup_insert_eq. }
  rewrite (saveCertificate_with_id today now (collectFormData page) (Str pdf)
             (storage page) key Hopen Hid).
  cbv zeta. rewrite decide_False by exact Hkey. reflexivity.
Qed.

(** A successful run. With a valid form, a preview showing "ID: " and a
    non-empty identifier, a document that composes and a database that
    opens, [generatePDF] stores the collected data, with the document and
    the timestamp of the call, under the identifier shown; it draws no
    identifier of its own (the counter is untouched), displays the document,
    leaves form and preview as they are, and reports success. *)
Theorem generatePDF_saves_under_preview_id host today now (page : Page) key pdf :
  (forall id, id ∈ requiredFields -> trim (valueOf page id) <> "") ->
  textOf page "preview-certificate-id" = "ID: " ++ key -> key <> "" ->
  PDFGenerator.generateCertificatePDF host (collectFormData page) (logoDataUrl page)
  = Resolved pdf ->
  opens (storage page) = true ->
  certificates (storage (generatePDF host today now page))
  = <[key := <["createdAt" := Str (toISOString now)]>
               (<["pdfDataUrl" := Str pdf]> (collectFormData page))]>
      (certificates (storage page))
  /\ localStorage (storage (generatePDF host today now page))
     = localStorage (storage page)
  /\ iframeSrc (generatePDF host today now page) = pdf
  /\ currentPdfDataUrl (generatePDF host today now page) = Str pdf
  /\ currentCertificateData (generatePDF host today now page)
     = Some (collectFormData page)
  /\ values (generatePDF host today now page) = values page
  /\ texts (generatePDF host today now page) = texts page
  /\ loading (generatePDF host today now page) = false
  /\ toasts (generatePDF host today now page)
     = (toasts page ++ [successToast])%list.
Proof.
  intros Hall Htext Hkey Hpdf Hopen.
  rewrite (generatePDF_saved host today now page key pdf Hall Htext Hkey Hpdf Hopen).
  repeat split.
Qed.

Lemma generatePDF_saves_under_preview_id_witness :
  certificates
    (storage (generatePDF Examples.plainHost Examples.day2 Examples.day2
                Session.readyPage))
  !! "CERT-20240510-00001"
  = Some (<["createdAt" := Str "2024-05-11T09:30:00.000Z"]>
            (<["pdfDataUrl" := Str "data:application/pdf;base64,JVBERi0="]>
               (collectFormData Session.readyPage))).
Proof.
  destruct (generatePDF_saves_under_preview_id Examples.plainHost Examples.day2
              Examples.day2 Session.readyPage "CERT-20240510-00001"
              "data:application/pdf;base64,JVBERi0=")
    as (Hstored & _).
  - apply each_required; vm_compute; discriminate.
  - vm_compute. reflexivity.
  - discriminate.
  - vm_compute. reflexivity.
  - reflexivity.
  - rewrite Hstored. apply lookup_insert_eq.
Defined.

(** One identifier per session. [generatePDF] never changes the identifier
    shown in the preview, so a second certificate generated after editing
    the form is stored under the key of the first and replaces it: the store
    ends up as if only the second had been generated. *)
Theorem generatePDF_overwrites_in_session
    host d1 n1 d2 n2 (page : Page) key pdf1 v2 pdf2 :
  (forall id, id ∈ requiredFields -> trim (valueOf page id) <> "") ->
  textOf page "preview-certificate-id" = "ID: " ++ key -> key <> "" ->
  opens (storage page) = true ->
  PDFGenerator.generateCertificatePDF host (collectFormData page) (logoDataUrl page)
  = Resolved pdf1 ->
  (forall id, id ∈ requiredFields ->
     trim (valueOf (fillForm v2 (generatePDF host d1 n1 page)) id) <> "") ->
  PDFGenerator.generateCertificatePDF host
    (collectFormData (fillForm v2 (generatePDF host d1 n1 page))) (logoDataUrl page)
  = Resolved pdf2 ->
  certificates
    (storage (generatePDF host d2 n2 (fillForm v2 (generatePDF host d1 n1 page))))
  = <[key := <["createdAt" := Str (toISOString n2)]>
               (<["pdfDataUrl" := Str pdf2]>
                  (collectFormData (fillForm v2 (generatePDF host d1 n1 page))))]>
      (certificates (storage page))
  /\ textOf (generatePDF host d2 n2 (fillForm v2 (generatePDF host d1 n1 page)))
       "preview-certificate-id"
     = "ID: " ++ key.
Proof.
  intros Hall Htext Hkey Hopen Hpdf1 Hall2 Hpdf2.
  pose proof (generatePDF_saved host d1 n1 page key pdf1 Hall Htext Hkey Hpdf1 Hopen)
    as H1. cbv zeta in H1.
  set (edited := fillForm v2 (generatePDF host d1 n1 page)) in *.
  assert (textOf edited "preview-certificate-id" = "ID: " ++ key) as Htext2.
  { subst edited. rewrite H1. exact Htext. }
  assert (opens (storage edited) = true) as Hopen2.
  { subst edited. rewrite H1. exact Hopen. }
  assert (logoDataUrl edited = logoDataUrl page) as Hlogo.
  { subst edited. rewrite H1. reflexivity. }
  assert (certificates (storage edited)
          = <[key := <["createdAt" := Str (toISOString n1)]>
                       (<["pdfDataUrl" := Str pdf1]> (collectFormData page))]>
              (certificates (storage page))) as Hc1.
  { subst edited. rewrite H1. reflexivity. }
  rewrite <- Hlogo in Hpdf2.
  rewrite (generatePDF_saved host d2 n2 edited key pdf2 Hall2 Htext2 Hkey Hpdf2 Hopen2).
  cbv zeta. split.
  - cbn [storage showToast set_toasts set_loading set_storage certificates
           set_certificates].
    rewrite Hc1. apply insert_insert_eq.
  - exact Htext2.
Qed.

Lemma generatePDF_overwrites_in_session_witness :
  size (certificates
          (storage (generatePDF Examples.plainHost Examples.day2 Examples.day2
                      (fillForm Session.filledAgain
                         (generatePDF Examples.plainHost Examples.day1
                            Examples.day1 Session.readyPage)))))
  = 1%nat.
Proof.
  destruct (generatePDF_overwrites_in_session Examples.plainHost
              Examples.day1 Examples.day1 Examples.day2 Examples.day2
              Session.readyPage "CERT-20240510-00001"
              "data:application/pdf;base64,JVBERi0=" Session.filledAgain
              "data:application/pdf;base64,JVBERi0=")
    as (Hstored & _).
  - apply each_required; vm_compute; discriminate.
  - vm_compute. reflexivity.
  - discriminate.
  - reflexivity.
  - vm_compute. reflexivity.
  - apply each_required; vm_compute; discriminate.
  - vm_compute. reflexivity.
  - rewrite Hstored. reflexivity.
Defined.

(** Failures after validation. If the document does not compose, nothing
    is displayed or stored, though the collected data has already replaced
    [currentCertificateData]. If it composes but the database does not open,
    the document is displayed and kept for download, yet nothing is stored.
    Either way the run ends with the one failure notification. *)
Theorem generatePDF_failure host today now (page : Page) :
  (forall id, id ∈ requiredFields -> trim (valueOf page id) <> "") ->
  (forall e,
      PDFGenerator.generateCertificatePDF host (collectFormData page)
        (logoDataUrl page) = Rejected e ->
      storage (generatePDF host today now page) = storage page
      /\ iframeSrc (generatePDF host today now page) = iframeSrc page
      /\ currentPdfDataUrl (generatePDF host today now page)
         = currentPdfDataUrl page
      /\ currentCertificateData (generatePDF host today now page)
         = Some (collectFormData page)
      /\ loading (generatePDF host today now page) = false
      /\ toasts (generatePDF host today now page)
         = (toasts page ++ [failureToast])%list)
  /\ (forall pdf,
        PDFGenerator.generateCertificatePDF host (collectFormData page)
          (logoDataUrl page) = Resolved pdf ->
        opens (storage page) = false ->
        storage (generatePDF host today now page) = storage page
        /\ iframeSrc (generatePDF host today now page) = pdf
        /\ currentPdfDataUrl (generatePDF host today now page) = Str pdf
        /\ loading (generatePDF host today now page) = false
        /\ toasts (generatePDF host today now page)
           = (toasts page ++ [failureToast])%list).
Proof.
  intros Hall. split.
  - intros e Hpdf. unfold generatePDF.
    rewrite (validateForm_valid page Hall). cbn [negb].
    change (collectFormData (set_loading true (set_classes _ page)))
      with (collectFormData page).
    change (logoDataUrl (set_currentCertificateData _
              (set_loading true (set_classes _ page))))
      with (logoDataUrl page).
    rewrite Hpdf. repeat split.
  - intros pdf Hpdf Hclosed.
    rewrite (generatePDF_composed host today now page pdf Hall Hpdf). cbv zeta.
    unfold saveCertificate, initDB. rewrite Hclosed. cbn [fst snd].
    repeat split.
Qed.

Lemma generatePDF_failure_witness :
  storage (generatePDF Examples.plainHost Examples.day1 Examples.day1
             Session.closedPage)
  = storage Session.closedPage
  /\ iframeSrc (generatePDF Examples.plainHost Examples.day1 Examples.day1
                  Session.closedPage)
     = "data:application/pdf;base64,JVBERi0=".
Proof.
  destruct (proj2 (generatePDF_failure Examples.plainHost Examples.day1
                     Examples.day1 Session.closedPage
                     ltac:(apply each_required; vm_compute; discriminate))
              "data:application/pdf;base64,JVBERi0=")
    as (Hs & Hi & _).
  - vm_compute. reflexivity.
  - reflexivity.
  - split; [exact Hs|exact Hi].
Defined.

End Script.

(** ** The round trips on the sample data *)

Section RoundTripExamples.

Import Main.

Lemma saveCertificate_then_getCertificateById_witness :
  exists key,
    Examples.carlosRecord !! "id" = Some (Str key)
    /\ getCertificateById (Str key) Examples.carlosSaved
       = Resolved (Some Examples.carlosRecord).
Proof.
  destruct (saveCertificate_then_getCertificateById Examples.day1 Examples.day1
              Examples.carlos (Str "data:application/pdf;base64,AAAA")
              Examples.emptyStore Examples.carlosRecord Examples.carlosSaved)
    as (key & Hid & Hget & _).
  - vm_compute. reflexivity.
  - exists key. split; [exact Hid|exact Hget].
Defined.

Lemma deleteCertificate_then_getCertificateById_witness :
  getCertificateById (Str "CERT-20240510-00001")
    (deleteCertificate (Str "CERT-20240510-00001") Examples.carlosSaved).2
  = Resolved None.
Proof.
  destruct (deleteCertificate_then_getCertificateById "CERT-20240510-00001"
              Examples.carlosSaved)
    as (Hgone & _).
  - reflexivity.
  - exact Hgone.
Defined.

Lemma closed_database_rejects_witness :
  saveCertificate Examples.day1 Examples.day1 Examples.carlosNoId
    (Str "data:application/pdf;base64,AAAA") (storage Session.closedPage)
  = (Rejected OpenError, storage Session.closedPage).
Proof.
  destruct (closed_database_rejects Examples.plainLocale Examples.day1
              Examples.day1 Examples.carlosNoId
              (Str "data:application/pdf;base64,AAAA") Null
              (storage Session.closedPage))
    as (Hsave & _).
  - reflexivity.
  - exact Hsave.
Defined.

Lemma saveCertificate_upserts_witness :
  exists all all',
    getAllCertificates Examples.carlosSaved = Resolved all
    /\ getAllCertificates
         (saveCertificate Examples.day2 Examples.day2 Examples.carlosEdited
            (Str "data:application/pdf;base64,BBBB") Examples.carlosSaved).2
       = Resolved all'
    /\ length all'
       = match certificates Examples.carlosSaved !! "CERT-20240510-00001" with
         | Some _ => length all
         | None => S (length all)
         end.
Proof.
  apply (saveCertificate_upserts Examples.day2 Examples.day2 Examples.carlosEdited
           (Str "data:application/pdf;base64,BBBB") Examples.carlosSaved
           "CERT-20240510-00001").
  - reflexivity.
  - reflexivity.
Defined.

Lemma validateForm_marks_blank_fields_witness :
  ("participant-name", "is-invalid")
  ∈ classes (validateForm (fillForm Session.blankName Session.readyPage)).2.
Proof.
  apply (proj1 (proj2 (validateForm_marks_blank_fields
                         (fillForm Session.blankName Session.readyPage)))
           "participant-name").
  - unfold requiredFields. set_solver.
  - reflexivity.
Defined.

End RoundTripExamples.
